(** * woori_rag: semantic cache (CAGCache) and the CAG -> RAG chain (CAGRAGChain)

    A shallow embedding of [src/app/cag.py] and [src/app/cag_rag_chain.py].

    - Python [str] values are lists of Unicode code points ([pystr]).
    - Python [float] values are IEEE-754 binary64 numbers ([PrimFloat.float]).
    - The Redis keyspace is a finite map from keys to hash records.
    - Methods that touch Redis, the embedding model, Elasticsearch or the
      LLM run in a small state-and-exception monad; the external
      collaborators are the fields of a [World] record. *)

From stdpp Require Import base strings gmap list.
From Stdlib Require Import ZArith NArith Lia.
From Stdlib Require Import Floats.PrimFloat.
From Stdlib Require DecimalN.

Set Warnings "-inexact-float".
Set Default Proof Using "Type".

(* ================================================================== *)
(** ** Python strings *)
(* ================================================================== *)

Module PyStr.

Local Open Scope N_scope.

(** A Python [str]: the sequence of its code points. *)
Definition pystr : Type := list N.

(** UTF-8 decoding, used only to write the source's literals readably. *)
Fixpoint utf8_decode (bs : list N) : pystr :=
  match bs with
  | [] => []
  | b0 :: r0 =>
      if b0 <? 128 then b0 :: utf8_decode r0
      else if b0 <? 224 then
        match r0 with
        | b1 :: r1 => ((b0 - 192) * 64 + (b1 - 128)) :: utf8_decode r1
        | _ => []
        end
      else if b0 <? 240 then
        match r0 with
        | b1 :: b2 :: r2 =>
            ((b0 - 224) * 4096 + (b1 - 128) * 64 + (b2 - 128)) :: utf8_decode r2
        | _ => []
        end
      else
        match r0 with
        | b1 :: b2 :: b3 :: r3 =>
            ((b0 - 240) * 262144 + (b1 - 128) * 4096 + (b2 - 128) * 64 + (b3 - 128))
              :: utf8_decode r3
        | _ => []
        end
  end.

Definition lit (s : string) : pystr :=
  utf8_decode (map Byte.to_N (String.list_byte_of_string s)).

(** ["\n"] *)
Definition NL : N := 10.

(** [str.isspace] on one code point (CPython's [_PyUnicode_IsWhitespace]);
    the same class is what [\s] matches in a [str] pattern. *)
Definition isspace (c : N) : bool :=
  ((9 <=? c) && (c <=? 13)) || ((28 <=? c) && (c <=? 32))
  || (c =? 133) || (c =? 160) || (c =? 5760)
  || ((8192 <=? c) && (c <=? 8202))
  || (c =? 8232) || (c =? 8233) || (c =? 8239) || (c =? 8287) || (c =? 12288).

Fixpoint lstrip (s : pystr) : pystr :=
  match s with
  | c :: s' => if isspace c then lstrip s' else s
  | [] => []
  end.

Definition rstrip (s : pystr) : pystr := rev (lstrip (rev s)).

(** [s.strip()] *)
Definition strip (s : pystr) : pystr := rstrip (lstrip s).

(** [s.split("\n")] *)
Fixpoint split_nl (s : pystr) : list pystr :=
  match s with
  | [] => [[]]
  | c :: s' =>
      if c =? NL then [] :: split_nl s'
      else match split_nl s' with
           | h :: t => (c :: h) :: t
           | [] => [[c]]
           end
  end.

(** [sep.join(parts)] *)
Fixpoint join (sep : pystr) (parts : list pystr) : pystr :=
  match parts with
  | [] => []
  | [p] => p
  | p :: ps => p ++ sep ++ join sep ps
  end.

(** [s.startswith(p)] *)
Fixpoint startswith (s p : pystr) : bool :=
  match p, s with
  | [], _ => true
  | c :: p', d :: s' => (c =? d) && startswith s' p'
  | _ :: _, [] => false
  end.

(** [p in s] *)
Fixpoint contains (s p : pystr) : bool :=
  startswith s p || match s with
                    | [] => false
                    | _ :: s' => contains s' p
                    end.

(** Truthiness of a [str]: non-empty. *)
Definition truthy (s : pystr) : bool :=
  match s with [] => false | _ :: _ => true end.

(** Truthiness of an [Optional[str]]: neither [None] nor [""]. *)
Definition truthy_opt (o : option pystr) : bool :=
  match o with Some s => truthy s | None => false end.

Fixpoint digits (d : Decimal.uint) : pystr :=
  match d with
  | Decimal.Nil => []
  | Decimal.D0 d => 48 :: digits d
  | Decimal.D1 d => 49 :: digits d
  | Decimal.D2 d => 50 :: digits d
  | Decimal.D3 d => 51 :: digits d
  | Decimal.D4 d => 52 :: digits d
  | Decimal.D5 d => 53 :: digits d
  | Decimal.D6 d => 54 :: digits d
  | Decimal.D7 d => 55 :: digits d
  | Decimal.D8 d => 56 :: digits d
  | Decimal.D9 d => 57 :: digits d
  end.

(** [str(n)] for a non-negative [int]. *)
Definition str_of_N (n : N) : pystr := digits (N.to_uint n).

End PyStr.

Import PyStr.

(* ================================================================== *)
(** ** The fragment of [re] used by the question pattern *)
(* ================================================================== *)

Module Re.

Local Open Scope N_scope.

Inductive regex : Type :=
| Void                          (* an empty alternation *)
| Lit (s : pystr)               (* literal text *)
| StarC (p : N -> bool)         (* c* for a one-character class c *)
| Opt (r : regex)               (* r? *)
| Cat (a b : regex)
| Alt (a b : regex)             (* a|b *)
| Eol.                          (* $ *)

(** [.] without DOTALL: anything but a newline. *)
Definition dot (c : N) : bool := negb (c =? NL).

(** [$] without MULTILINE: at the end, or just before a final newline. *)
Definition at_eol (s : pystr) : bool :=
  match s with
  | [] => true
  | [c] => c =? NL
  | _ => false
  end.

Fixpoint lit_match (p s : pystr) (k : pystr -> bool) : bool :=
  match p with
  | [] => k s
  | c :: p' => match s with
               | d :: s' => (c =? d) && lit_match p' s' k
               | [] => false
               end
  end.

Fixpoint star_match (p : N -> bool) (s : pystr) (k : pystr -> bool) : bool :=
  k s || match s with
         | c :: s' => p c && star_match p s' k
         | [] => false
         end.

(** Backtracking matcher: [rmatch r s k] holds when [r] matches some prefix
    of [s] and the continuation accepts the rest. *)
Fixpoint rmatch (r : regex) (s : pystr) (k : pystr -> bool) : bool :=
  match r with
  | Void => false
  | Lit p => lit_match p s k
  | StarC p => star_match p s k
  | Opt a => rmatch a s k || k s
  | Cat a b => rmatch a s (fun s' => rmatch b s' k)
  | Alt a b => rmatch a s k || rmatch b s k
  | Eol => at_eol s && k s
  end.

(** [re.match(r, s)] as a boolean: a match anchored at the start. *)
Definition re_match (r : regex) (s : pystr) : bool := rmatch r s (fun _ => true).

Definition alts (rs : list regex) : regex := foldr Alt Void rs.
Definition cats (rs : list regex) : regex := foldr Cat (Lit []) rs.

End Re.

Import Re.

(* ================================================================== *)
(** ** DocumentIngestor: [CAGCache.extract_qa_pairs] *)
(* ================================================================== *)

Module Ingest.

(** The pattern of cag.py line 120. *)
Definition QUESTION_PATTERN : regex :=
  cats [ StarC dot;
         alts [ Lit (lit "?");
                Lit (lit "？");
                cats [Lit (lit "궁금합니다"); Opt (Lit (lit "."))];
                cats [Lit (lit "알려주세요"); Opt (Lit (lit "."))];
                cats [Lit (lit "무엇인가요"); Opt (Lit (lit "."))];
                cats [Lit (lit "어떻게"); StarC dot];
                cats [Lit (lit "대해"); StarC isspace; Lit (lit "설명"); StarC dot];
                cats [Lit (lit "요약"); StarC dot];
                cats [Lit (lit "문의");
                      alts [Lit (lit "합니다"); Lit (lit "드립니다")];
                      Opt (Lit (lit "."))];
                cats [Lit (lit "설명");
                      alts [cats [Lit (lit "해"); StarC isspace; Lit (lit "주")];
                            cats [Lit (lit "하여"); StarC isspace; Lit (lit "주")];
                            Lit (lit "바랍니다")];
                      Opt (Lit (lit "."))];
                cats [Lit (lit "알고"); StarC isspace; Lit (lit "싶"); StarC dot];
                cats [Lit (lit "요청");
                      alts [Lit (lit "합니다"); Lit (lit "드립니다")];
                      Opt (Lit (lit "."))];
                cats [Lit (lit "유의사항"); Eol];
                cats [Lit (lit "절차"); Eol];
                cats [Lit (lit "방법"); Eol];
                cats [Lit (lit "기준"); Eol];
                cats [Lit (lit "대상"); Eol];
                cats [Lit (lit "요건"); Eol];
                cats [Lit (lit "처리"); Eol];
                cats [Lit (lit "신고"); Eol];
                cats [Lit (lit "수입"); Eol];
                cats [Lit (lit "수출"); Eol];
                cats [Lit (lit "반입"); Eol];
                cats [Lit (lit "검사"); Eol];
                cats [Lit (lit "허가"); Eol];
                cats [Lit (lit "확인"); Eol];
                cats [Lit (lit "통관"); Eol] ];
         Eol ].

Definition is_question (line : pystr) : bool := re_match QUESTION_PATTERN line.

Record QAPair : Type := { question : pystr; answer : pystr }.

(** One pdfplumber page: [extract_text()] may be [None]; a table is a
    list of rows of optional cells. *)
Record Page : Type := {
  extract_text : option pystr;
  extract_tables : list (list (list (option pystr)))
}.

(** The loop variables of lines 113-133, with the accumulator [qa_pairs]. *)
Record scan : Type := {
  qa_pairs : list QAPair;
  current_q : option pystr;
  current_a : list pystr
}.

(** The flush of lines 123-129 and 135-141. *)
Definition flush (st : scan) : list QAPair :=
  if truthy_opt (current_q st) && negb (bool_decide (current_a st = [])) then
    qa_pairs st ++ [ {| question := default [] (current_q st);
                        answer := strip (join [NL] (current_a st)) |} ]
  else qa_pairs st.

(** The loop body of lines 116-133. *)
Definition scan_line (st : scan) (raw : pystr) : scan :=
  let line := strip raw in
  if is_question line then
    {| qa_pairs := flush st; current_q := Some line; current_a := [] |}
  else if truthy_opt (current_q st) then
    {| qa_pairs := qa_pairs st; current_q := current_q st;
       current_a := current_a st ++ [line] |}
  else st.

(** The line-scan over one text, started with accumulator [acc]. *)
Definition scan_text (acc : list QAPair) (merged_text : pystr) : list QAPair :=
  flush (fold_left scan_line (split_nl merged_text)
           {| qa_pairs := acc; current_q := None; current_a := [] |}).

Definition cell_text (cell : option pystr) : pystr :=
  match cell with
  | Some c => if truthy c then c else []
  | None => []
  end.

Definition table_text (table : list (list (option pystr))) : pystr :=
  join [NL] (map (fun row => join (lit " | ") (map cell_text row)) table).

(** Lines 93-111: page text followed by the flattened tables. *)
Definition merged_text (pg : Page) : pystr :=
  let text := match extract_text pg with
              | Some t => if truthy t then t else []
              | None => []
              end in
  let table_texts := map table_text (extract_tables pg) in
  let table_text_block :=
    match table_texts with
    | [] => []
    | _ => [NL; NL] ++ lit "[표 데이터]" ++ [NL] ++ join [NL; NL] table_texts
    end in
  text ++ table_text_block.

Definition scan_page (acc : list QAPair) (pg : Page) : list QAPair :=
  scan_text acc (merged_text pg).

Definition extract_qa_pairs (pdf : list Page) : list QAPair :=
  fold_left scan_page pdf [].

(** The line-scan on a list of lines, from the initial loop state. *)
Definition scan_lines (lines : list pystr) : list QAPair :=
  flush (fold_left scan_line lines
           {| qa_pairs := []; current_q := None; current_a := [] |}).

End Ingest.

(* ================================================================== *)
(** ** Effects: exceptions, the process state, the collaborators *)
(* ================================================================== *)

Module Eff.

(** A raised [Exception]; [str(e)] is its message. *)
Inductive exn : Type := Exception (msg : pystr).

Definition str_of_exn (e : exn) : pystr := match e with Exception msg => msg end.

Inductive result (A : Type) : Type :=
| Ok (a : A)
| Raise (e : exn).
Arguments Ok {A} a.
Arguments Raise {A} e.

(** A Redis hash written by [hset] (fields of cag.py lines 156-160, 214-218). *)
Record Hash : Type := {
  embedding : list Byte.byte;
  text : pystr;
  source : pystr
}.

(** One document of a RediSearch result, with the returned fields
    [text], [source] and [score]; [score] is [float(doc.score)]. *)
Record Doc : Type := {
  doc_text : pystr;
  doc_source : pystr;
  doc_score : float
}.

(** One well-formed Elasticsearch hit: [hit["_source"]["source"]], as the
    f-string renders it, and [hit["_source"]["content"]], a [str]. *)
Record Hit : Type := {
  hit_source : pystr;
  hit_content : pystr
}.

(** [collections.deque(maxlen=n)]. *)
Record deque : Type := {
  items : list pystr;
  maxlen : nat
}.

Definition deque_new (n : nat) : deque := {| items := []; maxlen := n |}.

(** [d.append(x)]: a bounded deque that is full drops its leftmost item. *)
Definition deque_append (d : deque) (x : pystr) : deque :=
  let l := items d ++ [x] in
  {| items := if (maxlen d <? length l)%nat then tail l else l;
     maxlen := maxlen d |}.

(** [d.popleft()]: [None] stands for the IndexError on an empty deque. *)
Definition deque_popleft (d : deque) : option (pystr * deque) :=
  match items d with
  | [] => None
  | x :: l => Some (x, {| items := l; maxlen := maxlen d |})
  end.

(** Calls that leave the process, in the order they are made. *)
Inductive event : Type :=
| Encode (text : pystr)          (* CAGCache.model.encode *)
| FtSearch (k : Z)               (* r.ft(CACHE_INDEX).search *)
| HSet (key : pystr)             (* r.hset *)
| Delete (key : pystr)           (* r.delete *)
| EsEncode (query : pystr)       (* CAGRAGChain.embedding_model.encode *)
| EsSearch (top_k : Z)           (* es_client.search *)
| LLM (question : pystr).        (* rag_chain.invoke *)

(** The mutable state shared by all invocations: the Redis keyspace behind
    [CAGCache.r], the deque [CAGCache.user_cache], and the call log. *)
Record Machine : Type := {
  r : gmap pystr Hash;
  user_cache : deque;
  log : list event
}.

(** The external collaborators and the interpreter's built-ins. A hit
    returned by [es_search] is [None] when its ["_source"] lacks "source" or
    "content", or when its content is not a [str]: lines 133-134 raise on
    such a hit (KeyError, TypeError). *)
Record World : Type := {
  model_encode : pystr -> result (list Byte.byte);
  ft_search : gmap pystr Hash -> list Byte.byte -> Z -> result (list Doc);
  hset_fault : pystr -> option exn;
  delete_fault : pystr -> option exn;
  hash : pystr -> Z;
  embedding_model_encode : pystr -> result (list float);
  es_search : list float -> Z -> result (list (option Hit));
  rag_chain_invoke : pystr -> pystr -> result pystr;
  lower : pystr -> pystr
}.

Definition M (A : Type) : Type := Machine -> result A * Machine.

Definition ret {A} (a : A) : M A := fun m => (Ok a, m).

Definition raise {A} (e : exn) : M A := fun m => (Raise e, m).

Definition bind {A B} (c : M A) (k : A -> M B) : M B :=
  fun m => match c m with
           | (Ok a, m') => k a m'
           | (Raise e, m') => (Raise e, m')
           end.

(** [try: c  except Exception as e: ...]: the outcome of [c] as a value. *)
Definition attempt {A} (c : M A) : M (result A) :=
  fun m => let '(x, m') := c m in (Ok x, m').

Definition record (ev : event) (m : Machine) : Machine :=
  {| r := r m; user_cache := user_cache m; log := log m ++ [ev] |}.

(** A call to a collaborator with outcome [out]. *)
Definition call {A} (ev : event) (out : result A) : M A :=
  fun m => (out, record ev m).

Definition get : M Machine := fun m => (Ok m, m).

Definition set_user_cache (d : deque) : M unit :=
  fun m => (Ok tt, {| r := r m; user_cache := d; log := log m |}).

End Eff.

Import Eff.

Declare Scope py_scope.
Delimit Scope py_scope with py.
Notation "'let*' x ':=' c 'in' k" := (bind c (fun x => k))
  (at level 10, x name, c at level 100, k at level 200) : py_scope.
Notation "c ';;' k" := (bind c (fun _ => k))
  (at level 100, k at level 200, right associativity) : py_scope.

(* ================================================================== *)
(** ** [CAGCache] (cag.py) *)
(* ================================================================== *)

Module Cache.

Local Open Scope py_scope.

Section WithWorld.

Variable W : World.

(** [CAGCache.__init__], line 41: the dynamic window starts empty; [store]
    is whatever the Redis server already holds. [dynamic_cache_size] is a
    natural number: [deque] refuses a negative [maxlen] with a ValueError,
    so no object exists for one. *)
Definition init (store : gmap pystr Hash) (dynamic_cache_size : nat) : Machine :=
  {| r := store; user_cache := deque_new dynamic_cache_size; log := [] |}.

(** [CAGCache._embed] *)
Definition _embed (text : pystr) : M (list Byte.byte) :=
  call (Encode text) (model_encode W text).

(** [self.r.ft(self.CACHE_INDEX).search(q, query_params={"vec": q_emb})] *)
Definition search (k : Z) (q_emb : list Byte.byte) : M (list Doc) :=
  fun m => call (FtSearch k) (ft_search W (r m) q_emb k) m.

(** [self.r.hset(key, mapping=...)] *)
Definition hset (key : pystr) (mapping : Hash) : M unit :=
  fun m => match hset_fault W key with
           | Some e => (Raise e, record (HSet key) m)
           | None =>
               (Ok tt, record (HSet key)
                         {| r := <[key := mapping]> (r m);
                            user_cache := user_cache m; log := log m |})
           end.

(** [self.r.delete(key)] *)
Definition delete_key (key : pystr) : M unit :=
  fun m => match delete_fault W key with
           | Some e => (Raise e, record (Delete key) m)
           | None =>
               (Ok tt, record (Delete key)
                         {| r := delete key (r m);
                            user_cache := user_cache m; log := log m |})
           end.

(** The loop of [CAGCache.pre_cache_pdf], lines 152-161, from index [i]. *)
Fixpoint pre_cache_from (i : N) (qa_list : list Ingest.QAPair) : M unit :=
  match qa_list with
  | [] => ret tt
  | qa :: rest =>
      let key := lit "cache:pdf:" ++ str_of_N i in
      let* emb := _embed (Ingest.question qa) in
      hset key {| embedding := emb; text := Ingest.answer qa;
                  source := lit "pdf_pre_cache" |} ;;
      pre_cache_from (i + 1) rest
  end.

(** [CAGCache.pre_cache_pdf(pdf_path)], on the opened document. *)
Definition pre_cache_pdf (pdf : list Ingest.Page) : M unit :=
  pre_cache_from 0 (Ingest.extract_qa_pairs pdf).

Definition DEFAULT_K : Z := 3.
Definition DEFAULT_THRESHOLD : float := 0.7%float.

(** [CAGCache.check_cache(user_query, k=3, threshold=0.7)]; an omitted
    keyword argument is [None]. *)
Definition check_cache (user_query : pystr) (k : option Z)
    (threshold : option float) : M (option pystr) :=
  let k := default DEFAULT_K k in
  let threshold := default DEFAULT_THRESHOLD threshold in
  let* q_emb := _embed user_query in
  let* res := attempt (search k q_emb) in
  match res with
  | Raise _ => ret None
  | Ok docs =>
      match docs with
      | [] => ret None
      | d0 :: _ =>
          let sim := PrimFloat.sub 1%float (doc_score d0) in
          if PrimFloat.leb threshold sim then ret (Some (doc_text d0))
          else ret None
      end
  end.

(** The key of line 211. *)
Definition dynamic_key (query : pystr) : pystr :=
  lit "cache:dyn:" ++ str_of_N (Z.to_N (Z.abs (hash W query) mod 100000000)).

(** [CAGCache.save_dynamic_cache(query, answer)] *)
Definition save_dynamic_cache (query answer : pystr) : M unit :=
  let key := dynamic_key query in
  let* emb := _embed query in
  hset key {| embedding := emb; text := answer; source := lit "dynamic_cache" |} ;;
  let* m := get in
  set_user_cache (deque_append (user_cache m) key) ;;
  let* m := get in
  if (maxlen (user_cache m) <? length (items (user_cache m)))%nat then
    match deque_popleft (user_cache m) with
    | None => raise (Exception (lit "pop from an empty deque"))
    | Some (oldest, d) => set_user_cache d ;; delete_key oldest
    end
  else ret tt.

End WithWorld.

End Cache.

(* ================================================================== *)
(** ** [CAGRAGChain] (cag_rag_chain.py) *)
(* ================================================================== *)

Module Chain.

Local Open Scope py_scope.

(** The configuration held by a chain object. *)
Record CAGRAGChain : Type := { cache_threshold : float }.

Definition DEFAULT_CACHE_THRESHOLD : float := 0.85%float.

(** [CAGRAGChain.__init__(..., cache_threshold=0.85)] *)
Definition init (cache_threshold : option float) : CAGRAGChain :=
  {| cache_threshold := default DEFAULT_CACHE_THRESHOLD cache_threshold |}.

(** The result dictionary of [invoke]. *)
Record Response : Type := {
  answer : pystr;
  cache_hit : bool;
  source : pystr
}.

Definition MSG_EMPTY_QUESTION : pystr := Eval vm_compute in lit "질문을 입력해주세요.".
Definition MSG_NO_DOCS : pystr :=
  Eval vm_compute in lit "죄송합니다. 질문에 대한 관련 문서를 검색할 수 없습니다.".
Definition MSG_CONNECTION : pystr :=
  Eval vm_compute in lit "❌ Ollama 서버에 연결할 수 없습니다. 서버가 실행 중인지 확인하세요.".
Definition MSG_TIMEOUT : pystr :=
  Eval vm_compute in lit "❌ 응답 시간을 초과했습니다. 잠시 후 다시 시도해주세요.".
Definition MSG_GENERIC_PREFIX : pystr := Eval vm_compute in lit "❌ 답변 생성 중 오류: ".
Definition ERROR_MARK : pystr := Eval vm_compute in lit "❌".

Section WithWorld.

Variable W : World.

(** Lines 131-136: the labelled passages, numbered from 1. *)
Fixpoint format_hits (i : N) (hits : list Hit) : pystr :=
  match hits with
  | [] => []
  | hit :: rest =>
      ([NL] ++ lit "--- 문서 " ++ str_of_N (i + 1) ++ lit " (출처: "
        ++ hit_source hit ++ lit ") ---" ++ [NL])
      ++ hit_content hit
      ++ ([NL] ++ lit "-----------------------------------" ++ [NL])
      ++ format_hits (i + 1) rest
  end.

(** The hits of a result when the loop of lines 132-135 can index them
    all; [None] when it raises on one of them. *)
Fixpoint well_formed (hits : list (option Hit)) : option (list Hit) :=
  match hits with
  | [] => Some []
  | None :: _ => None
  | Some hit :: rest =>
      match well_formed rest with
      | Some hs => Some (hit :: hs)
      | None => None
      end
  end.

(** [CAGRAGChain._retrieve_documents(query, top_k=3)] *)
Definition _retrieve_documents (query : pystr) (top_k : option Z) : M pystr :=
  let top_k := default 3%Z top_k in
  let* res := attempt (
    let* query_vector := call (EsEncode query) (embedding_model_encode W query) in
    let* hits := call (EsSearch top_k) (es_search W query_vector top_k) in
    match hits with
    | [] => ret []
    | _ =>
        match well_formed hits with
        | Some hs => ret (format_hits 0 hs)
        | None => raise (Exception (lit "KeyError"))
        end
    end) in
  match res with
  | Ok context => ret context
  | Raise _ => ret []
  end.

(** [CAGRAGChain._generate_answer(query, context)] *)
Definition _generate_answer (query context : pystr) : M pystr :=
  let* res := attempt (
    let* answer := call (LLM query) (rag_chain_invoke W context query) in
    ret (strip answer)) in
  match res with
  | Ok answer => ret answer
  | Raise e =>
      let error_msg := str_of_exn e in
      if contains error_msg (lit "Connection") then ret MSG_CONNECTION
      else if contains (lower W error_msg) (lit "timeout") then ret MSG_TIMEOUT
      else ret (MSG_GENERIC_PREFIX ++ str_of_exn e)
  end.

(** [CAGRAGChain.invoke(inputs)] *)
Definition invoke (self : CAGRAGChain) (inputs : gmap pystr pystr) : M Response :=
  let question := default [] (inputs !! lit "question") in
  if negb (truthy question) then
    ret {| answer := MSG_EMPTY_QUESTION; cache_hit := false; source := lit "NONE" |}
  else
    let* cached_answer :=
      Cache.check_cache W question None (Some (cache_threshold self)) in
    if truthy_opt cached_answer then
      ret {| answer := default [] cached_answer; cache_hit := true;
             source := lit "CAG" |}
    else
      let* context := _retrieve_documents question None in
      if negb (truthy context) then
        ret {| answer := MSG_NO_DOCS; cache_hit := false; source := lit "NONE" |}
      else
        let* answer := _generate_answer question context in
        (if negb (startswith answer ERROR_MARK)
         then Cache.save_dynamic_cache W question answer
         else ret tt) ;;
        ret {| answer := answer; cache_hit := false; source := lit "RAG" |}.

End WithWorld.

End Chain.

(* ================================================================== *)
(** * Vocabulary of the statements *)
(* ================================================================== *)

Section IngestVocabulary.

Import Ingest.

(** What an emitted pair looks like inside the stripped lines [ls]: a
    question line followed by a non-empty run [buf] of answer lines. *)
Definition emitted_from (ls : list pystr) (p : QAPair) : Prop :=
  exists pre buf post,
    ls = pre ++ question p :: buf ++ post
    /\ buf <> []
    /\ is_question (question p) = true
    /\ Forall (fun l => is_question l = false) buf
    /\ answer p = strip (join [NL] buf).

(** Loop invariant of the scan after the stripped lines [ls]. *)
Definition scan_inv (ls : list pystr) (st : scan) : Prop :=
  Forall (emitted_from ls) (qa_pairs st)
  /\ match current_q st with
     | None => current_a st = []
     | Some q =>
         is_question q = true
         /\ (exists pre, ls = pre ++ q :: current_a st)
         /\ Forall (fun l => is_question l = false) (current_a st)
     end.

(** The accumulator is only ever appended to. *)
Definition with_acc (acc : list QAPair) (st : scan) : scan :=
  {| qa_pairs := acc ++ qa_pairs st;
     current_q := current_q st; current_a := current_a st |}.

End IngestVocabulary.

(** States reached from a fresh [CAGCache] with window capacity [N] by any
    calls of the public methods, under any behaviour of the collaborators. *)
Inductive reachable (N : nat) : Machine -> Prop :=
| reach_init store :
    reachable N (Cache.init store N)
| reach_save W query answer m :
    reachable N m ->
    reachable N (snd (Cache.save_dynamic_cache W query answer m))
| reach_pre_cache W pdf m :
    reachable N m ->
    reachable N (snd (Cache.pre_cache_pdf W pdf m))
| reach_check W query k threshold m :
    reachable N m ->
    reachable N (snd (Cache.check_cache W query k threshold m))
| reach_invoke W self inputs m :
    reachable N m ->
    reachable N (snd (Chain.invoke W self inputs m)).

(** A deque never holds more than [maxlen] items. *)
Definition deque_ok (d : deque) : Prop := (length (items d) <= maxlen d)%nat.

(** Same Redis keyspace and same window; the call log may differ. *)
Definition same_cache (m m' : Machine) : Prop :=
  r m' = r m /\ user_cache m' = user_cache m.

(** The log only grows. *)
Definition extends (m m' : Machine) : Prop :=
  exists more, log m' = log m ++ more.

(** The window invariant: capacity [N], never more than [N] keys. *)
Definition window_inv (N : nat) (m : Machine) : Prop :=
  maxlen (user_cache m) = N /\ (length (items (user_cache m)) <= N)%nat.

(** [inputs.get("question", "")] *)
Definition question_of (inputs : gmap pystr pystr) : pystr :=
  default [] (inputs !! lit "question").

(** The answer [_generate_answer] returns when the LLM call raised [e]. *)
Definition failure_answer (W : World) (e : exn) : pystr :=
  let error_msg := str_of_exn e in
  if contains error_msg (lit "Connection") then Chain.MSG_CONNECTION
  else if contains (lower W error_msg) (lit "timeout") then Chain.MSG_TIMEOUT
  else Chain.MSG_GENERIC_PREFIX ++ error_msg.

(* ================================================================== *)
(** * Concrete collaborators for worked examples *)
(* ================================================================== *)

Module Demo.

Local Open Scope N_scope.

(** [str.lower] on ASCII text. *)
Definition ascii_lower (s : pystr) : pystr :=
  map (fun c => if (65 <=? c) && (c <=? 90) then c + 32 else c) s.

(** A toy embedding: the low byte of each code point. *)
Definition encode_bytes (s : pystr) : list Byte.byte :=
  map (fun c => default Byte.x00 (Byte.of_N (c mod 256))) s.

Definition same_bytes (a b : list Byte.byte) : bool :=
  bool_decide (map Byte.to_N a = map Byte.to_N b).

(** A search that returns, at distance 0, the entries whose stored
    embedding equals the query vector (at most [k] of them). *)
Definition exact_search (store : gmap pystr Hash) (q_emb : list Byte.byte)
    (k : Z) : result (list Doc) :=
  Ok (take (Z.to_nat k)
        (omap (fun kv : pystr * Hash =>
                 if same_bytes (embedding (snd kv)) q_emb
                 then Some {| doc_text := text (snd kv);
                              doc_source := source (snd kv);
                              doc_score := 0%float |}
                 else None)
              (map_to_list store))).

Definition one_hit : list Hit :=
  [ {| hit_source := lit "guide.pdf"; hit_content := lit "본문" |} ].

(** Everything works: embeddings, an exact-match index, one retrieved
    passage, and an LLM that answers "답". *)
Definition W0 : World := {|
  model_encode := fun s => Ok (encode_bytes s);
  ft_search := exact_search;
  hset_fault := fun _ => None;
  delete_fault := fun _ => None;
  hash := fun s => Z.of_N (foldr N.add 0 s);
  embedding_model_encode := fun _ => Ok [];
  es_search := fun _ _ => Ok (map Some one_hit);
  rag_chain_invoke := fun _ _ => Ok (lit "답");
  lower := ascii_lower
|}.

(** [W] with another index search. *)
Definition with_ft_search (W : World)
    (f : gmap pystr Hash -> list Byte.byte -> Z -> result (list Doc)) : World := {|
  model_encode := model_encode W;
  ft_search := f;
  hset_fault := hset_fault W;
  delete_fault := delete_fault W;
  hash := hash W;
  embedding_model_encode := embedding_model_encode W;
  es_search := es_search W;
  rag_chain_invoke := rag_chain_invoke W;
  lower := lower W
|}.

(** [W] with another document search. *)
Definition with_es_search (W : World)
    (f : list float -> Z -> result (list (option Hit))) : World := {|
  model_encode := model_encode W;
  ft_search := ft_search W;
  hset_fault := hset_fault W;
  delete_fault := delete_fault W;
  hash := hash W;
  embedding_model_encode := embedding_model_encode W;
  es_search := f;
  rag_chain_invoke := rag_chain_invoke W;
  lower := lower W
|}.

(** [W] with another LLM. *)
Definition with_llm (W : World) (f : pystr -> pystr -> result pystr) : World := {|
  model_encode := model_encode W;
  ft_search := ft_search W;
  hset_fault := hset_fault W;
  delete_fault := delete_fault W;
  hash := hash W;
  embedding_model_encode := embedding_model_encode W;
  es_search := es_search W;
  rag_chain_invoke := f;
  lower := lower W
|}.

(** A sequence of [save_dynamic_cache] calls. *)
Fixpoint save_all (W : World) (calls : list (pystr * pystr)) (m : Machine) : Machine :=
  match calls with
  | [] => m
  | (query, answer) :: rest =>
      save_all W rest (snd (Cache.save_dynamic_cache W query answer m))
  end.

Definition six_saves : list (pystr * pystr) :=
  [ (lit "a", lit "A"); (lit "b", lit "B"); (lit "c", lit "C");
    (lit "d", lit "D"); (lit "e", lit "E"); (lit "f", lit "F") ].

Definition is_delete (ev : event) : bool :=
  match ev with Delete _ => true | _ => false end.

Definition questions (q : pystr) : gmap pystr pystr := {[ lit "question" := q ]}.

Definition sample_text : pystr :=
  lit "질문입니까?" ++ [NL] ++ lit "답변1" ++ [NL] ++ lit "답변2" ++ [NL]
  ++ lit "또 질문인가요?" ++ [NL] ++ lit "답변3".

(** An index that cannot be reached. *)
Definition W_index_down : World :=
  with_ft_search W0 (fun _ _ _ => Raise (Exception (lit "Connection refused"))).

Definition cached_doc : Doc :=
  {| doc_text := lit "캐시된 답변"; doc_source := lit "pdf_pre_cache";
     doc_score := 0.1%float |}.

(** An index whose nearest entry is [cached_doc]. *)
Definition W_hit : World := with_ft_search W0 (fun _ _ _ => Ok [cached_doc]).

(** A document whose only answer line is blank: the ingestor emits the
    pair with the empty answer, and [pre_cache_pdf] stores it. *)
Definition blank_answer_pdf : list Ingest.Page :=
  [ {| Ingest.extract_text :=
         Some (lit "질문입니까?" ++ [NL] ++ [NL] ++ lit "또 질문인가요?");
       Ingest.extract_tables := [] |} ].

Definition m_blank : Machine :=
  snd (Cache.pre_cache_pdf W0 blank_answer_pdf (Cache.init ∅ 5)).

(** An LLM that fails with the given message. *)
Definition W_llm_fails (msg : pystr) : World :=
  with_llm W0 (fun _ _ => Raise (Exception msg)).

(** A document store that is down, and one that finds nothing. *)
Definition W_es_down : World :=
  with_es_search W0 (fun _ _ => Raise (Exception (lit "ConnectionError"))).
Definition W_es_empty : World := with_es_search W0 (fun _ _ => Ok []).

Definition near_doc : Doc :=
  {| doc_text := lit "캐시된 답변"; doc_source := lit "dynamic_cache";
     doc_score := 0.2%float |}.

(** An index whose nearest entry is at similarity 0.8. *)
Definition W_near : World := with_ft_search W0 (fun _ _ _ => Ok [near_doc]).

Definition empty_text_doc : Doc :=
  {| doc_text := []; doc_source := lit "pdf_pre_cache"; doc_score := 0%float |}.

(** An index whose nearest entry has an empty text at distance 0. *)
Definition W_empty_text : World :=
  with_ft_search W0 (fun _ _ _ => Ok [empty_text_doc]).

End Demo.

(* ================================================================== *)
(** * The status badge of the chat page (streamlit_app.py) *)
(* ================================================================== *)

Module Ui.

Local Open Scope N_scope.

(** The double quote, which the badge markup contains. *)
Definition QUOTE : N := 34.

Definition span (class body : pystr) : pystr :=
  lit "<span class=" ++ [QUOTE] ++ class ++ [QUOTE] ++ lit ">" ++ body
  ++ lit "</span>".

Definition BADGE_HIT : pystr :=
  Eval vm_compute in span (lit "cache-hit") (lit "⚡ CAG HIT (캐시)").
Definition BADGE_RAG : pystr :=
  Eval vm_compute in span (lit "cache-miss-rag") (lit "📚 RAG (문서 검색)").
Definition BADGE_NONE : pystr :=
  Eval vm_compute in span (lit "cache-miss-none") (lit "❌ 검색 불가").

(** [get_status_badge(source, cache_hit)], lines 74-81. *)
Definition get_status_badge (source : pystr) (cache_hit : bool) : pystr :=
  if cache_hit then BADGE_HIT
  else if bool_decide (source = lit "RAG") then BADGE_RAG
  else BADGE_NONE.

End Ui.

(* ================================================================== *)
(** * Further vocabulary *)
(* ================================================================== *)

(** A string without a line break. *)
Definition one_line (s : pystr) : Prop := Forall (fun c => dot c = true) s.

(** How many of the lines are question lines once stripped. *)
Fixpoint count_questions (lines : list pystr) : nat :=
  match lines with
  | [] => 0
  | l :: rest =>
      (if Ingest.is_question (strip l) then 1 else 0) + count_questions rest
  end.

(** Line endings that make a question whatever precedes them. *)
Definition question_endings : list pystr :=
  [ lit "?"; lit "？"; lit "궁금합니다"; lit "궁금합니다."; lit "알려주세요";
    lit "알려주세요."; lit "무엇인가요"; lit "무엇인가요."; lit "문의합니다";
    lit "문의드립니다."; lit "설명해 주"; lit "설명하여 주."; lit "설명바랍니다";
    lit "요청합니다"; lit "요청드립니다."; lit "유의사항"; lit "절차"; lit "방법";
    lit "기준"; lit "대상"; lit "요건"; lit "처리"; lit "신고"; lit "수입";
    lit "수출"; lit "반입"; lit "검사"; lit "허가"; lit "확인"; lit "통관" ].

(** The last [n] items of a list. *)
Definition lastn {A} (n : nat) (l : list A) : list A := drop (length l - n) l.

(** The key under which [pre_cache_pdf] stores pair number [i]. *)
Definition pdf_key (i : N) : pystr := lit "cache:pdf:" ++ str_of_N i.

(** A collaborator call that returns. *)
Definition succeeds {A} (x : result A) : Prop := exists a, x = Ok a.

Section MoreIngestVocabulary.

Import Ingest.

(** A string that does not start with white space. *)
Definition head_ok (s : pystr) : Prop :=
  match s with [] => True | c :: _ => isspace c = false end.

(** Whether a question is open: 1 or 0. *)
Definition open_count (st : scan) : nat :=
  if truthy_opt (current_q st) then 1 else 0.

(** What follows the leading [.*] of the question pattern. *)
Definition pattern_tail : regex :=
  match QUESTION_PATTERN with
  | Cat _ tail => tail
  | _ => Void
  end.

End MoreIngestVocabulary.

(** The ways [invoke] can end, from state [m] with question [q]. *)
Inductive invoke_outcome (W : World) (q : pystr) (m : Machine) :
    result Chain.Response -> Machine -> Prop :=
| out_empty :
    truthy q = false ->
    invoke_outcome W q m
      (Ok {| Chain.answer := Chain.MSG_EMPTY_QUESTION; Chain.cache_hit := false;
             Chain.source := lit "NONE" |}) m
| out_lookup_raises e m' :
    truthy q = true ->
    model_encode W q = Raise e ->
    same_cache m m' ->
    invoke_outcome W q m (Raise e) m'
| out_hit cached m' :
    truthy q = true ->
    truthy cached = true ->
    same_cache m m' ->
    invoke_outcome W q m
      (Ok {| Chain.answer := cached; Chain.cache_hit := true;
             Chain.source := lit "CAG" |}) m'
| out_no_docs m' :
    truthy q = true ->
    same_cache m m' ->
    invoke_outcome W q m
      (Ok {| Chain.answer := Chain.MSG_NO_DOCS; Chain.cache_hit := false;
             Chain.source := lit "NONE" |}) m'
| out_not_cached ans m' :
    truthy q = true ->
    startswith ans Chain.ERROR_MARK = true ->
    same_cache m m' ->
    invoke_outcome W q m
      (Ok {| Chain.answer := ans; Chain.cache_hit := false;
             Chain.source := lit "RAG" |}) m'
| out_save_raises ans e m' :
    truthy q = true ->
    startswith ans Chain.ERROR_MARK = false ->
    model_encode W q = Raise e
    \/ hset_fault W (Cache.dynamic_key W q) = Some e ->
    same_cache m m' ->
    invoke_outcome W q m (Raise e) m'
| out_cached ans emb m' :
    truthy q = true ->
    startswith ans Chain.ERROR_MARK = false ->
    model_encode W q = Ok emb ->
    r m' = <[Cache.dynamic_key W q :=
               {| embedding := emb; text := ans; source := lit "dynamic_cache" |}]>
             (r m) ->
    user_cache m' = deque_append (user_cache m) (Cache.dynamic_key W q) ->
    invoke_outcome W q m
      (Ok {| Chain.answer := ans; Chain.cache_hit := false;
             Chain.source := lit "RAG" |}) m'.

Section MoreCollaborators.

Import Demo.

(** A Redis whose writes fail. *)
Definition W_redis_down : World := {|
  model_encode := model_encode W0;
  ft_search := ft_search W0;
  hset_fault := fun _ => Some (Exception (lit "Connection refused"));
  delete_fault := delete_fault W0;
  hash := hash W0;
  embedding_model_encode := embedding_model_encode W0;
  es_search := es_search W0;
  rag_chain_invoke := rag_chain_invoke W0;
  lower := lower W0
|}.

(** A hash that sends "b" to the opposite of the hash of "a". *)
Definition W_opposite : World := {|
  model_encode := model_encode W0;
  ft_search := ft_search W0;
  hset_fault := hset_fault W0;
  delete_fault := delete_fault W0;
  hash := fun s => if bool_decide (s = lit "b") then (-97)%Z else hash W0 s;
  embedding_model_encode := embedding_model_encode W0;
  es_search := es_search W0;
  rag_chain_invoke := rag_chain_invoke W0;
  lower := lower W0
|}.

(** An LLM whose answer starts with the error mark. *)
Definition W_marked : World :=
  with_llm W0 (fun _ _ => Ok (lit "  ❌ 해당 품목은 수입할 수 없습니다. ")).

(** An embedding model that is not available. *)
Definition W_model_down : World := {|
  model_encode := fun _ => Raise (Exception (lit "CUDA out of memory"));
  ft_search := ft_search W0;
  hset_fault := hset_fault W0;
  delete_fault := delete_fault W0;
  hash := hash W0;
  embedding_model_encode := embedding_model_encode W0;
  es_search := es_search W0;
  rag_chain_invoke := rag_chain_invoke W0;
  lower := lower W0
|}.

(** A document search whose second hit has no "content". *)
Definition W_es_malformed : World :=
  with_es_search W0
    (fun _ _ => Ok [ Some {| hit_source := lit "guide.pdf";
                             hit_content := lit "본문" |};
                     None ]).

End MoreCollaborators.

(* ================================================================== *)
(** * Facts about the ingestor *)
(* ================================================================== *)

Section IngestFacts.

Import Ingest Demo.

(** The matcher agrees with [re.match] on a few lines. *)
Example question_mark : is_question (lit "질문입니까?") = true.
Proof. vm_compute. reflexivity. Qed.

Example plain_line : is_question (lit "답변1") = false.
Proof. vm_compute. reflexivity. Qed.

Example noun_ending : is_question (lit "통관 절차") = true.
Proof. vm_compute. reflexivity. Qed.

Example noun_not_at_end : is_question (lit "절차는 다음과 같다") = false.
Proof. vm_compute. reflexivity. Qed.

Example one_optional_period :
  is_question (lit "문의드립니다.") = true /\ is_question (lit "문의드립니다..") = false.
Proof. vm_compute. split; reflexivity. Qed.

Example spaces_inside :
  is_question (lit "관세에 대해  설명 부탁") = true
  /\ is_question (lit "설명해 주") = true
  /\ is_question (lit "설명해 주세요") = false.
Proof. vm_compute. repeat split; reflexivity. Qed.

Example empty_line : is_question [] = false.
Proof. vm_compute. reflexivity. Qed.

Lemma flush_no_answer (st : scan) :
  current_a st = [] -> flush st = qa_pairs st.
Proof.
  intros H. unfold flush. rewrite H.
  rewrite bool_decide_eq_true_2 by reflexivity.
  now rewrite andb_false_r.
Qed.

Lemma scan_line_question (st : scan) (raw : pystr) :
  is_question (strip raw) = true ->
  scan_line st raw
  = {| qa_pairs := flush st; current_q := Some (strip raw); current_a := [] |}.
Proof. intros H. unfold scan_line. now rewrite H. Qed.

Lemma scan_line_closed (st : scan) (raw : pystr) :
  is_question (strip raw) = false ->
  truthy_opt (current_q st) = false ->
  scan_line st raw = st.
Proof. intros H1 H2. unfold scan_line. now rewrite H1, H2. Qed.

Lemma scan_line_answer (st : scan) (raw : pystr) :
  is_question (strip raw) = false ->
  truthy_opt (current_q st) = true ->
  scan_line st raw
  = {| qa_pairs := qa_pairs st; current_q := current_q st;
       current_a := current_a st ++ [strip raw] |}.
Proof. intros H1 H2. unfold scan_line. now rewrite H1, H2. Qed.

(** Two question lines in a row: the first leaves no trace. *)
Lemma scan_line_question_twice (st : scan) (q1 q2 : pystr) :
  is_question (strip q1) = true ->
  is_question (strip q2) = true ->
  scan_line (scan_line st q1) q2 = scan_line st q2.
Proof.
  intros H1 H2.
  rewrite (scan_line_question (scan_line st q1) q2 H2).
  rewrite (scan_line_question st q2 H2).
  f_equal. rewrite (scan_line_question st q1 H1).
  now apply flush_no_answer.
Qed.

Lemma scan_before_first_question (pre : list pystr) (st : scan) :
  truthy_opt (current_q st) = false ->
  Forall (fun l => is_question (strip l) = false) pre ->
  fold_left scan_line pre st = st.
Proof.
  intros Hq Hpre. induction Hpre as [|l pre Hl _ IH]; simpl.
  - reflexivity.
  - now rewrite (scan_line_closed st l Hl Hq).
Qed.

Lemma emitted_from_app (ls more : list pystr) (p : QAPair) :
  emitted_from ls p -> emitted_from (ls ++ more) p.
Proof.
  intros (pre & buf & post & -> & Hne & Hq & Hbuf & Ha).
  exists pre, buf, (post ++ more). repeat split; try assumption.
  now rewrite <- !app_assoc, <- app_comm_cons, <- app_assoc.
Qed.

Lemma flush_emitted (ls : list pystr) (st : scan) :
  scan_inv ls st -> Forall (emitted_from ls) (flush st).
Proof.
  intros [Hout Hcur]. unfold flush.
  destruct (current_q st) as [q|] eqn:Eq; simpl; [|assumption].
  destruct (truthy q); simpl; [|assumption].
  case_bool_decide as Hbuf; simpl; [assumption|].
  destruct Hcur as (Hq & [pre Hls] & Hans).
  apply Forall_app. split; [assumption|].
  constructor; [|constructor].
  exists pre, (current_a st), []. simpl.
  rewrite app_nil_r. repeat split; assumption.
Qed.

Lemma scan_inv_step (ls : list pystr) (st : scan) (raw : pystr) :
  scan_inv ls st -> scan_inv (ls ++ [strip raw]) (scan_line st raw).
Proof.
  intros Hinv. pose proof Hinv as [Hout Hcur].
  destruct (is_question (strip raw)) eqn:Hl.
  - rewrite (scan_line_question st raw Hl). split; simpl.
    + eapply Forall_impl; [apply (flush_emitted ls st Hinv)|].
      intros p Hp. now apply emitted_from_app.
    + repeat split; [assumption| |constructor]. now exists ls.
  - destruct (truthy_opt (current_q st)) eqn:Hq.
    + rewrite (scan_line_answer st raw Hl Hq). split; simpl.
      * eapply Forall_impl; [exact Hout|].
        intros p Hp. now apply emitted_from_app.
      * destruct (current_q st) as [q|]; [|discriminate].
        destruct Hcur as (Hqq & [pre Hls] & Hans).
        repeat split; [assumption| |].
        -- exists pre. rewrite Hls.
           now rewrite <- app_assoc, <- app_comm_cons.
        -- apply Forall_app. split; [assumption|]. now repeat constructor.
    + rewrite (scan_line_closed st raw Hl Hq). split.
      * eapply Forall_impl; [exact Hout|].
        intros p Hp. now apply emitted_from_app.
      * destruct (current_q st) as [q|]; [|assumption].
        destruct Hcur as (Hqq & [pre Hls] & Hans).
        repeat split; [assumption| |assumption].
        destruct q; [|discriminate]. discriminate.
Qed.

Lemma scan_inv_fold (lines ls : list pystr) (st : scan) :
  scan_inv ls st ->
  scan_inv (ls ++ map strip lines) (fold_left scan_line lines st).
Proof.
  revert ls st. induction lines as [|raw lines IH]; intros ls st Hinv; simpl.
  - now rewrite app_nil_r.
  - replace (ls ++ strip raw :: map strip lines)
      with ((ls ++ [strip raw]) ++ map strip lines)
      by now rewrite <- app_assoc.
    apply IH. now apply scan_inv_step.
Qed.

Lemma scan_lines_emitted (lines : list pystr) :
  Forall (emitted_from (map strip lines)) (scan_lines lines).
Proof.
  unfold scan_lines. apply flush_emitted.
  apply (scan_inv_fold lines [] _). split; simpl; [constructor|reflexivity].
Qed.

Lemma flush_with_acc (acc : list QAPair) (st : scan) :
  flush (with_acc acc st) = acc ++ flush st.
Proof.
  unfold flush, with_acc; simpl.
  destruct (truthy_opt (current_q st) && negb (bool_decide (current_a st = [])));
    [now rewrite app_assoc | reflexivity].
Qed.

Lemma scan_line_with_acc (acc : list QAPair) (st : scan) (raw : pystr) :
  scan_line (with_acc acc st) raw = with_acc acc (scan_line st raw).
Proof.
  unfold scan_line. destruct (is_question (strip raw)).
  - rewrite flush_with_acc. reflexivity.
  - simpl. destruct (truthy_opt (current_q st)); reflexivity.
Qed.

Lemma fold_scan_with_acc (acc : list QAPair) (lines : list pystr) (st : scan) :
  fold_left scan_line lines (with_acc acc st)
  = with_acc acc (fold_left scan_line lines st).
Proof.
  revert st. induction lines as [|raw lines IH]; intros st; simpl.
  - reflexivity.
  - now rewrite scan_line_with_acc, IH.
Qed.

Lemma scan_text_acc (acc : list QAPair) (t : pystr) :
  scan_text acc t = acc ++ scan_lines (split_nl t).
Proof.
  unfold scan_text, scan_lines.
  rewrite <- flush_with_acc, <- fold_scan_with_acc.
  unfold with_acc; simpl. now rewrite app_nil_r.
Qed.

Lemma fold_scan_page (pdf : list Page) (acc : list QAPair) :
  fold_left scan_page pdf acc
  = acc ++ concat (map (fun pg => scan_lines (split_nl (merged_text pg))) pdf).
Proof.
  revert acc. induction pdf as [|pg pdf IH]; intros acc; simpl.
  - now rewrite app_nil_r.
  - rewrite IH. unfold scan_page. rewrite scan_text_acc. now rewrite app_assoc.
Qed.

(** [extract_qa_pairs] is the line-scan of each page, in page order. *)
Lemma extract_qa_pairs_pages (pdf : list Page) :
  extract_qa_pairs pdf
  = concat (map (fun pg => scan_lines (split_nl (merged_text pg))) pdf).
Proof. unfold extract_qa_pairs. now rewrite fold_scan_page. Qed.

(** C8. On the text "질문입니까?\n답변1\n답변2\n또 질문인가요?\n답변3" the
    line-scan (and [extract_qa_pairs] on a one-page document with that text
    and no tables) yields exactly two pairs: ("질문입니까?", "답변1\n답변2")
    and ("또 질문인가요?", "답변3"). *)
Theorem sample_text_two_pairs :
  let expected :=
    [ {| question := lit "질문입니까?";
         answer := lit "답변1" ++ [NL] ++ lit "답변2" |};
      {| question := lit "또 질문인가요?"; answer := lit "답변3" |} ] in
  scan_text [] sample_text = expected
  /\ extract_qa_pairs
       [ {| extract_text := Some sample_text; extract_tables := [] |} ]
     = expected.
Proof. vm_compute. split; reflexivity. Qed.

(** C9. (1) A question line directly followed by another question line
    contributes nothing: the scan yields what it yields without the first
    of the two. (2) Every pair emitted, by the line-scan and by
    [extract_qa_pairs], is a question line followed by a non-empty run of
    non-question lines whose newline-join (stripped) is the answer. (3) Lines
    before the first question line are discarded. *)
Theorem no_pair_without_answer_lines :
  (forall pre q1 q2 post,
      is_question (strip q1) = true ->
      is_question (strip q2) = true ->
      scan_lines (pre ++ q1 :: q2 :: post) = scan_lines (pre ++ q2 :: post))
  /\ (forall lines p,
        In p (scan_lines lines) -> emitted_from (map strip lines) p)
  /\ (forall pdf p,
        In p (extract_qa_pairs pdf) ->
        exists pg, In pg pdf
                   /\ emitted_from (map strip (split_nl (merged_text pg))) p)
  /\ (forall pre rest,
        Forall (fun l => is_question (strip l) = false) pre ->
        scan_lines (pre ++ rest) = scan_lines rest).
Proof.
  repeat split.
  - intros pre q1 q2 post H1 H2. unfold scan_lines.
    rewrite !fold_left_app. simpl.
    now rewrite (scan_line_question_twice _ q1 q2 H1 H2).
  - intros lines p Hp.
    pose proof (scan_lines_emitted lines) as Hall.
    rewrite Forall_forall in Hall. apply Hall. now apply list_elem_of_In.
  - intros pdf p Hp. rewrite extract_qa_pairs_pages in Hp.
    apply in_concat in Hp. destruct Hp as (ps & Hps & Hp).
    apply in_map_iff in Hps. destruct Hps as (pg & <- & Hpg).
    exists pg. split; [assumption|].
    pose proof (scan_lines_emitted (split_nl (merged_text pg))) as Hall.
    rewrite Forall_forall in Hall. apply Hall. now apply list_elem_of_In.
  - intros pre rest Hpre. unfold scan_lines.
    rewrite fold_left_app.
    now rewrite (scan_before_first_question pre
                   {| qa_pairs := []; current_q := None; current_a := [] |}
                   eq_refl Hpre).
Qed.

Lemma no_pair_without_answer_lines_witness :
  scan_lines ([lit "머리말"] ++ lit "통관 절차" :: lit "질문입니까?" :: [lit "답변1"])
  = scan_lines ([lit "머리말"] ++ lit "질문입니까?" :: [lit "답변1"])
  /\ scan_lines ([lit "머리말"] ++ [lit "질문입니까?"; lit "답변1"])
     = scan_lines [lit "질문입니까?"; lit "답변1"].
Proof.
  split.
  - apply (proj1 no_pair_without_answer_lines); vm_compute; reflexivity.
  - apply (proj2 (proj2 (proj2 no_pair_without_answer_lines))).
    repeat constructor.
Defined.

(** The answer text itself may still be empty: a blank line counts as an
    answer line. *)
Example blank_answer_line :
  scan_lines [lit "질문입니까?"; []; lit "또 질문인가요?"]
  = [ {| question := lit "질문입니까?"; answer := [] |} ].
Proof. vm_compute. reflexivity. Qed.

End IngestFacts.

(* ================================================================== *)
(** * Facts about the dynamic window *)
(* ================================================================== *)

Section WindowFacts.

Lemma deque_append_ok (d : deque) (x : pystr) :
  deque_ok d -> deque_ok (deque_append d x).
Proof.
  unfold deque_ok, deque_append; simpl. intros H.
  rewrite length_app; simpl.
  destruct (Nat.ltb_spec (maxlen d) (length (items d) + 1)) as [Hlt|Hge].
  - destruct (items d) as [|y l]; simpl in *.
    + lia.
    + rewrite length_app; simpl. lia.
  - rewrite length_app; simpl. lia.
Qed.

Lemma deque_append_maxlen (d : deque) (x : pystr) :
  maxlen (deque_append d x) = maxlen d.
Proof. reflexivity. Qed.

(** After [append] the test of cag.py line 221 is false. *)
Lemma deque_append_not_over (d : deque) (x : pystr) :
  deque_ok d ->
  (maxlen (deque_append d x) <? length (items (deque_append d x)))%nat = false.
Proof.
  intros H. apply Nat.ltb_ge. apply (deque_append_ok d x H).
Qed.

(** The three ways [save_dynamic_cache] can end on a well-formed window:
    the embedding fails, the write fails, or the entry is written and its
    key appended; line 223 is never reached. *)
Lemma save_dynamic_cache_cases W (query answer : pystr) (m : Machine) :
  deque_ok (user_cache m) ->
  let key := Cache.dynamic_key W query in
  Cache.save_dynamic_cache W query answer m =
  match model_encode W query with
  | Raise e => (Raise e, record (Encode query) m)
  | Ok emb =>
      match hset_fault W key with
      | Some e => (Raise e, record (HSet key) (record (Encode query) m))
      | None =>
          (Ok tt,
           {| r := <[key := {| embedding := emb; text := answer;
                               source := lit "dynamic_cache" |}]> (r m);
              user_cache := deque_append (user_cache m) key;
              log := log m ++ [Encode query; HSet key] |})
      end
  end.
Proof.
  intros Hok key.
  unfold Cache.save_dynamic_cache, Cache._embed, Cache.hset, bind, call.
  fold key.
  destruct (model_encode W query) as [emb|e]; [|reflexivity].
  destruct (hset_fault W key) as [e|]; [reflexivity|].
  unfold get, set_user_cache, record; cbn [fst snd r user_cache log].
  rewrite (deque_append_not_over (user_cache m) key Hok).
  unfold ret. now rewrite <- app_assoc.
Qed.

End WindowFacts.

(* ================================================================== *)
(** * Facts about lookup, retrieval and generation *)
(* ================================================================== *)

Section StageFacts.

Variable W : World.

Lemma same_cache_refl (m : Machine) : same_cache m m.
Proof. now split. Qed.

Lemma same_cache_trans (m1 m2 m3 : Machine) :
  same_cache m1 m2 -> same_cache m2 m3 -> same_cache m1 m3.
Proof. intros [H1 H2] [H3 H4]. split; congruence. Qed.

Lemma same_cache_record (ev : event) (m : Machine) : same_cache m (record ev m).
Proof. now split. Qed.

(** The outcomes of [check_cache], case by case. *)
Lemma check_cache_cases (user_query : pystr) (k : option Z)
    (threshold : option float) (m : Machine) :
  let k' := default Cache.DEFAULT_K k in
  let t' := default Cache.DEFAULT_THRESHOLD threshold in
  Cache.check_cache W user_query k threshold m =
  match model_encode W user_query with
  | Raise e => (Raise e, record (Encode user_query) m)
  | Ok q_emb =>
      let m' := record (FtSearch k') (record (Encode user_query) m) in
      match ft_search W (r m) q_emb k' with
      | Raise _ => (Ok None, m')
      | Ok [] => (Ok None, m')
      | Ok (d0 :: _) =>
          if PrimFloat.leb t' (PrimFloat.sub 1%float (doc_score d0))
          then (Ok (Some (doc_text d0)), m')
          else (Ok None, m')
      end
  end.
Proof.
  intros k' t'.
  unfold Cache.check_cache, Cache._embed, Cache.search, bind, attempt, call.
  fold k' t'.
  destruct (model_encode W user_query) as [q_emb|e]; [|reflexivity].
  cbn [r record].
  destruct (ft_search W (r m) q_emb k') as [[|d0 docs]|e]; try reflexivity.
  now destruct (PrimFloat.leb t' (PrimFloat.sub 1%float (doc_score d0))).
Qed.

Lemma check_cache_same_cache (user_query : pystr) (k : option Z)
    (threshold : option float) (m : Machine) :
  same_cache m (snd (Cache.check_cache W user_query k threshold m)).
Proof.
  rewrite check_cache_cases.
  destruct (model_encode W user_query) as [q_emb|e]; [|now split].
  cbv zeta.
  destruct (ft_search W (r m) q_emb _) as [[|d0 docs]|e]; try now split.
  now destruct (PrimFloat.leb _ _).
Qed.

(** The outcomes of [_retrieve_documents]: it never raises. *)
Lemma retrieve_documents_cases (query : pystr) (top_k : option Z) (m : Machine) :
  let k' := default 3%Z top_k in
  Chain._retrieve_documents W query top_k m =
  match embedding_model_encode W query with
  | Raise _ => (Ok [], record (EsEncode query) m)
  | Ok v =>
      let m' := record (EsSearch k') (record (EsEncode query) m) in
      match es_search W v k' with
      | Raise _ => (Ok [], m')
      | Ok [] => (Ok [], m')
      | Ok (hit :: hits) =>
          match Chain.well_formed (hit :: hits) with
          | Some hs => (Ok (Chain.format_hits 0 hs), m')
          | None => (Ok [], m')
          end
      end
  end.
Proof.
  intros k'.
  unfold Chain._retrieve_documents, bind, attempt, call, ret, raise. fold k'.
  destruct (embedding_model_encode W query) as [v|e]; [|reflexivity].
  destruct (es_search W v k') as [[|hit hits]|e]; try reflexivity.
  now destruct (Chain.well_formed (hit :: hits)).
Qed.

Lemma retrieve_documents_same_cache (query : pystr) (top_k : option Z) (m : Machine) :
  same_cache m (snd (Chain._retrieve_documents W query top_k m)).
Proof.
  rewrite retrieve_documents_cases.
  destruct (embedding_model_encode W query) as [v|e]; [|now split].
  cbv zeta. destruct (es_search W v _) as [[|hit hits]|e]; try now split.
  now destruct (Chain.well_formed (hit :: hits)).
Qed.

(** A result whose hits are all well formed is not empty when the result
    is not. *)
Lemma well_formed_cons (hit : option Hit) (hits : list (option Hit))
    (hs : list Hit) :
  Chain.well_formed (hit :: hits) = Some hs -> exists h t, hs = h :: t.
Proof.
  cbn [Chain.well_formed]. destruct hit as [h|]; [|discriminate].
  destruct (Chain.well_formed hits) as [t|]; [|discriminate].
  intros [= <-]. now exists h, t.
Qed.

(** The outcomes of [_generate_answer]: it never raises. *)
Lemma generate_answer_cases (query context : pystr) (m : Machine) :
  Chain._generate_answer W query context m =
  match rag_chain_invoke W context query with
  | Ok answer => (Ok (strip answer), record (LLM query) m)
  | Raise e => (Ok (failure_answer W e), record (LLM query) m)
  end.
Proof.
  unfold Chain._generate_answer, failure_answer, bind, attempt, call, ret.
  destruct (rag_chain_invoke W context query) as [answer|e]; [reflexivity|].
  destruct (contains (str_of_exn e) (lit "Connection")); [reflexivity|].
  now destruct (contains (lower W (str_of_exn e)) (lit "timeout")).
Qed.

Lemma startswith_app_l (s p more : pystr) :
  startswith s p = true -> startswith (s ++ more) p = true.
Proof.
  revert s. induction p as [|c p IH]; intros s H.
  - now destruct (s ++ more).
  - destruct s as [|d s]; simpl in *; [discriminate|].
    apply andb_true_iff in H. destruct H as [Hc Hs].
    now rewrite Hc, (IH s Hs).
Qed.

(** Every failure answer carries the error mark that blocks write-back. *)
Lemma failure_answer_marked (e : exn) :
  startswith (failure_answer W e) Chain.ERROR_MARK = true.
Proof.
  unfold failure_answer.
  destruct (contains (str_of_exn e) (lit "Connection")); [reflexivity|].
  destruct (contains (lower W (str_of_exn e)) (lit "timeout")); [reflexivity|].
  apply startswith_app_l. vm_compute. reflexivity.
Qed.

End StageFacts.

(* ================================================================== *)
(** * Facts about [invoke] *)
(* ================================================================== *)

Section InvokeFacts.

Variable W : World.
Variable self : Chain.CAGRAGChain.

Import Chain.

Lemma invoke_empty (inputs : gmap pystr pystr) (m : Machine) :
  truthy (question_of inputs) = false ->
  invoke W self inputs m
  = (Ok {| answer := MSG_EMPTY_QUESTION; cache_hit := false;
           source := lit "NONE" |}, m).
Proof.
  intros Hq. unfold invoke. cbv zeta. fold (question_of inputs). now rewrite Hq.
Qed.

Lemma invoke_hit (inputs : gmap pystr pystr) (m m1 : Machine) (cached : pystr) :
  truthy (question_of inputs) = true ->
  Cache.check_cache W (question_of inputs) None (Some (cache_threshold self)) m
  = (Ok (Some cached), m1) ->
  truthy cached = true ->
  invoke W self inputs m
  = (Ok {| answer := cached; cache_hit := true; source := lit "CAG" |}, m1).
Proof.
  intros Hq Hc Ht. unfold invoke, bind. cbv zeta. fold (question_of inputs).
  rewrite Hq; cbn [negb]; cbv beta. rewrite Hc; simpl. now rewrite Ht.
Qed.

(** What [invoke] does once the lookup came back falsy (lines 181-204). *)
Lemma invoke_miss (inputs : gmap pystr pystr) (m m1 : Machine)
    (cached : option pystr) :
  let question := question_of inputs in
  truthy question = true ->
  Cache.check_cache W question None (Some (cache_threshold self)) m
  = (Ok cached, m1) ->
  truthy_opt cached = false ->
  invoke W self inputs m =
  match _retrieve_documents W question None m1 with
  | (Raise e, m2) => (Raise e, m2)
  | (Ok context, m2) =>
      if negb (truthy context) then
        (Ok {| answer := MSG_NO_DOCS; cache_hit := false;
               source := lit "NONE" |}, m2)
      else
        match _generate_answer W question context m2 with
        | (Raise e, m3) => (Raise e, m3)
        | (Ok ans, m3) =>
            match (if negb (startswith ans ERROR_MARK)
                   then Cache.save_dynamic_cache W question ans
                   else ret tt) m3 with
            | (Raise e, m4) => (Raise e, m4)
            | (Ok _, m4) =>
                (Ok {| answer := ans; cache_hit := false;
                       source := lit "RAG" |}, m4)
            end
        end
  end.
Proof.
  intros question Hq Hc Ht. unfold invoke, bind. cbv zeta.
  fold (question_of inputs). fold question.
  rewrite Hq; cbn [negb]; cbv beta. rewrite Hc, Ht.
  destruct (_retrieve_documents W question None m1) as [[context|e] m2];
    [|reflexivity].
  destruct (negb (truthy context)); [reflexivity|].
  destruct (_generate_answer W question context m2) as [[ans|e] m3];
    [|reflexivity].
  destruct (negb (startswith ans ERROR_MARK)); unfold ret; reflexivity.
Qed.

Ltac log_grows :=
  eexists; cbn [log record r user_cache snd fst];
  rewrite <- ?app_assoc; reflexivity.

Lemma extends_refl (m : Machine) : extends m m.
Proof. exists []. now rewrite app_nil_r. Qed.

Lemma extends_trans (m1 m2 m3 : Machine) :
  extends m1 m2 -> extends m2 m3 -> extends m1 m3.
Proof.
  intros [a Ha] [b Hb]. exists (a ++ b). now rewrite Hb, Ha, app_assoc.
Qed.

Lemma extends_record (ev : event) (m : Machine) : extends m (record ev m).
Proof. now exists [ev]. Qed.

Lemma save_dynamic_cache_extends (query ans : pystr) (m : Machine) :
  extends m (snd (Cache.save_dynamic_cache W query ans m)).
Proof.
  unfold Cache.save_dynamic_cache, Cache._embed, Cache.hset, Cache.delete_key,
    bind, call, get, set_user_cache, raise, ret.
  destruct (model_encode W query) as [emb|e]; cbn [snd];
    [|apply extends_record].
  destruct (hset_fault W _) as [e|]; cbn [snd]; [log_grows|].
  cbn [r user_cache log record].
  destruct (_ <? _)%nat; cbn [snd]; [|log_grows].
  destruct (deque_popleft _) as [[oldest d]|]; cbn [snd]; [|log_grows].
  destruct (delete_fault W oldest); cbn [snd]; log_grows.
Qed.

Lemma generate_answer_same_cache (query context : pystr) (m : Machine) :
  same_cache m (snd (_generate_answer W query context m)).
Proof.
  rewrite generate_answer_cases.
  destruct (rag_chain_invoke W context query); apply same_cache_record.
Qed.

(** [invoke] changes the cache only through [save_dynamic_cache]: a
    property kept by that method, and blind to the log, is kept by [invoke]. *)
Lemma invoke_preserves (P : Machine -> Prop) (inputs : gmap pystr pystr)
    (m : Machine) :
  (forall m1 m2, same_cache m1 m2 -> P m1 -> P m2) ->
  (forall query ans m1, P m1 -> P (snd (Cache.save_dynamic_cache W query ans m1))) ->
  P m -> P (snd (invoke W self inputs m)).
Proof.
  intros Hsame Hsave Hm.
  destruct (truthy (question_of inputs)) eqn:Hq;
    [|now rewrite (invoke_empty inputs m Hq)].
  pose proof (check_cache_same_cache W (question_of inputs) None
                (Some (cache_threshold self)) m) as Hc1.
  destruct (Cache.check_cache W (question_of inputs) None
              (Some (cache_threshold self)) m) as [[cached|e] m1] eqn:Hc;
    cbn [snd] in Hc1.
  - destruct (truthy_opt cached) eqn:Ht.
    + destruct cached as [c|]; [|discriminate].
      rewrite (invoke_hit inputs m m1 c Hq Hc Ht). now apply (Hsame m m1).
    + rewrite (invoke_miss inputs m m1 cached Hq Hc Ht).
      pose proof (retrieve_documents_same_cache W (question_of inputs) None m1)
        as Hr1.
      destruct (_retrieve_documents W (question_of inputs) None m1)
        as [[context|e] m2]; cbn [snd] in Hr1.
      * assert (P m2) as Hm2 by (apply (Hsame m1 m2 Hr1); now apply (Hsame m m1)).
        destruct (negb (truthy context)); [assumption|].
        pose proof (generate_answer_same_cache (question_of inputs) context m2)
          as Hg1.
        destruct (_generate_answer W (question_of inputs) context m2)
          as [[ans|e] m3]; cbn [snd] in Hg1.
        -- assert (P m3) as Hm3 by now apply (Hsame m2 m3).
           destruct (negb (startswith ans ERROR_MARK)).
           ++ pose proof (Hsave (question_of inputs) ans m3 Hm3) as Hs.
              now destruct (Cache.save_dynamic_cache W (question_of inputs) ans m3)
                as [[[]|e] m4].
           ++ assumption.
        -- now apply (Hsame m2 m3).
      * apply (Hsame m1 m2 Hr1). now apply (Hsame m m1).
  - unfold invoke, bind. cbv zeta. fold (question_of inputs).
    rewrite Hq; cbn [negb]; cbv beta. rewrite Hc. now apply (Hsame m m1).
Qed.

End InvokeFacts.

Section ReachableFacts.

Lemma window_inv_same (N : nat) (m1 m2 : Machine) :
  same_cache m1 m2 -> window_inv N m1 -> window_inv N m2.
Proof. intros [_ Hu] [H1 H2]. unfold window_inv. now rewrite Hu. Qed.

Lemma window_inv_save (N : nat) W (query ans : pystr) (m : Machine) :
  window_inv N m -> window_inv N (snd (Cache.save_dynamic_cache W query ans m)).
Proof.
  intros [Hmax Hlen].
  assert (deque_ok (user_cache m)) as Hok by (unfold deque_ok; lia).
  rewrite (save_dynamic_cache_cases W query ans m Hok). cbv zeta.
  destruct (model_encode W query) as [emb|e]; [|now split].
  destruct (hset_fault W _) as [e|]; [now split|].
  unfold window_inv. cbn [snd user_cache]. split.
  - exact Hmax.
  - pose proof (deque_append_ok (user_cache m) (Cache.dynamic_key W query) Hok)
      as H. unfold deque_ok in H.
    rewrite (deque_append_maxlen (user_cache m)) in H. lia.
Qed.

Lemma pre_cache_from_user_cache W (qa_list : list Ingest.QAPair) (i : N)
    (m : Machine) :
  user_cache (snd (Cache.pre_cache_from W i qa_list m)) = user_cache m.
Proof.
  revert i m. induction qa_list as [|qa rest IH]; intros i m; [reflexivity|].
  cbn [Cache.pre_cache_from]. unfold bind, Cache._embed, Cache.hset, call.
  destruct (model_encode W (Ingest.question qa)) as [emb|e]; [|reflexivity].
  destruct (hset_fault W _) as [e|]; [reflexivity|].
  now rewrite IH.
Qed.

Lemma reachable_window_inv (N : nat) (m : Machine) :
  reachable N m -> window_inv N m.
Proof.
  induction 1 as [store|W query ans m _ IH|W pdf m _ IH
                  |W query k t m _ IH|W self inputs m _ IH].
  - split; simpl; lia.
  - now apply window_inv_save.
  - unfold window_inv, Cache.pre_cache_pdf.
    now rewrite pre_cache_from_user_cache.
  - eapply window_inv_same; [apply check_cache_same_cache|exact IH].
  - apply invoke_preserves; [apply window_inv_same| |exact IH].
    intros q a m1. apply window_inv_save.
Qed.

(** C5. After any sequence of completed operations on a [CAGCache] built
    with [dynamic_cache_size = N] ([save_dynamic_cache], and also
    [check_cache] and [invoke]), [user_cache] holds at most [N] keys. *)
Theorem window_never_exceeds_capacity (N : nat) (m : Machine) :
  reachable N m -> (length (items (user_cache m)) <= N)%nat.
Proof. intros H. apply (reachable_window_inv N m H). Qed.

End ReachableFacts.

(* ================================================================== *)
(** * The chain's outcomes *)
(* ================================================================== *)

Section ChainClaims.

Import Chain Demo.

(** C6. If the embedding of the query succeeded and the index search
    raises, or returns no documents, [check_cache] returns [None] without
    raising, and leaves the index and the window as they were. *)
Theorem search_failure_is_a_miss (W : World) (user_query : pystr) (k : option Z)
    (threshold : option float) (m : Machine) (q_emb : list Byte.byte) :
  model_encode W user_query = Ok q_emb ->
  ((exists e, ft_search W (r m) q_emb (default Cache.DEFAULT_K k) = Raise e)
   \/ ft_search W (r m) q_emb (default Cache.DEFAULT_K k) = Ok []) ->
  let m' := record (FtSearch (default Cache.DEFAULT_K k))
              (record (Encode user_query) m) in
  Cache.check_cache W user_query k threshold m = (Ok None, m')
  /\ same_cache m m'.
Proof.
  intros Henc Hsearch m'. split; [|now split].
  rewrite check_cache_cases, Henc. cbv zeta.
  destruct Hsearch as [[e He]|Hnil]; [now rewrite He|now rewrite Hnil].
Qed.

Lemma search_failure_is_a_miss_witness :
  let m := Cache.init ∅ 5 in
  (Cache.check_cache W_index_down (lit "q") None None m
   = (Ok None, record (FtSearch 3) (record (Encode (lit "q")) m))
   /\ same_cache m (record (FtSearch 3) (record (Encode (lit "q")) m)))
  /\ (Cache.check_cache W0 (lit "q") None None m
      = (Ok None, record (FtSearch 3) (record (Encode (lit "q")) m))
      /\ same_cache m (record (FtSearch 3) (record (Encode (lit "q")) m))).
Proof.
  split.
  - apply (search_failure_is_a_miss W_index_down (lit "q") None None
             (Cache.init ∅ 5) (encode_bytes (lit "q"))).
    + reflexivity.
    + left. eexists. reflexivity.
  - apply (search_failure_is_a_miss W0 (lit "q") None None
             (Cache.init ∅ 5) (encode_bytes (lit "q"))).
    + reflexivity.
    + right. vm_compute. reflexivity.
Defined.

(** The embedding call sits outside the [try]: its failure does leave
    [check_cache] as an exception. *)
Example embedding_failure_propagates (W : World) (user_query : pystr)
    (m : Machine) (e : exn) :
  model_encode W user_query = Raise e ->
  fst (Cache.check_cache W user_query None None m) = Raise e.
Proof. intros H. now rewrite check_cache_cases, H. Qed.

(** The lookup on a hit, and what [invoke] makes of it. *)
Lemma lookup_hit (W : World) (self : CAGRAGChain)
    (inputs : gmap pystr pystr)
    (m : Machine) (q_emb : list Byte.byte) (d0 : Doc) (docs : list Doc) :
  let question := question_of inputs in
  model_encode W question = Ok q_emb ->
  ft_search W (r m) q_emb Cache.DEFAULT_K = Ok (d0 :: docs) ->
  PrimFloat.leb (cache_threshold self) (PrimFloat.sub 1%float (doc_score d0)) = true ->
  let m' := record (FtSearch Cache.DEFAULT_K) (record (Encode question) m) in
  Cache.check_cache W question None (Some (cache_threshold self)) m
  = (Ok (Some (doc_text d0)), m')
  /\ same_cache m m'
  /\ (truthy question = true ->
      truthy (doc_text d0) = true ->
      invoke W self inputs m
      = (Ok {| answer := doc_text d0; cache_hit := true; source := lit "CAG" |},
         m')).
Proof.
  intros question Henc Hsearch Hsim m'.
  assert (Cache.check_cache W question None (Some (cache_threshold self)) m
          = (Ok (Some (doc_text d0)), m')) as Hc.
  { rewrite check_cache_cases, Henc. cbv zeta. cbn [from_option id].
    now rewrite Hsearch, Hsim. }
  split; [exact Hc|]. split; [now split|].
  intros Hq Ht. now apply invoke_hit.
Qed.

(** C2, as amended. If the first document of the search result has
    similarity [1 - score >= threshold], [check_cache] returns its text
    unchanged; if moreover the question and that text are non-empty, [invoke]
    returns the text with [cache_hit = True] and [source = "CAG"]. Either way
    the index and the window are as before. *)
Theorem cache_hit_returns_cached_text (W : World) (self : CAGRAGChain)
    (inputs : gmap pystr pystr)
    (m : Machine) (q_emb : list Byte.byte) (d0 : Doc) (docs : list Doc) :
  let question := question_of inputs in
  model_encode W question = Ok q_emb ->
  ft_search W (r m) q_emb Cache.DEFAULT_K = Ok (d0 :: docs) ->
  PrimFloat.leb (cache_threshold self) (PrimFloat.sub 1%float (doc_score d0)) = true ->
  let m' := record (FtSearch Cache.DEFAULT_K) (record (Encode question) m) in
  Cache.check_cache W question None (Some (cache_threshold self)) m
  = (Ok (Some (doc_text d0)), m')
  /\ same_cache m m'
  /\ (truthy question = true ->
      truthy (doc_text d0) = true ->
      invoke W self inputs m
      = (Ok {| answer := doc_text d0; cache_hit := true; source := lit "CAG" |},
         m')).
Proof.
  intros question Henc Hsearch Hsim m'.
  assert (Cache.check_cache W question None (Some (cache_threshold self)) m
          = (Ok (Some (doc_text d0)), m')) as Hc.
  { rewrite check_cache_cases, Henc. cbv zeta. cbn [from_option id].
    now rewrite Hsearch, Hsim. }
  split; [exact Hc|]. split; [now split|].
  intros Hq Ht. now apply invoke_hit.
Qed.

Lemma cache_hit_returns_cached_text_witness :
  let m := Cache.init ∅ 5 in
  let m' := record (FtSearch 3) (record (Encode (lit "q")) m) in
  Cache.check_cache W_hit (lit "q") None (Some 0.85%float) m
  = (Ok (Some (lit "캐시된 답변")), m')
  /\ same_cache m m'
  /\ invoke W_hit (Chain.init None) (questions (lit "q")) m
     = (Ok {| answer := lit "캐시된 답변"; cache_hit := true;
              source := lit "CAG" |}, m').
Proof.
  destruct (cache_hit_returns_cached_text W_hit (Chain.init None)
              (questions (lit "q")) (Cache.init ∅ 5) (encode_bytes (lit "q"))
              cached_doc [])
    as (Hc & Hs & Hi).
  - vm_compute. reflexivity.
  - reflexivity.
  - vm_compute. reflexivity.
  - split; [|split].
    + vm_compute. vm_compute in Hc. exact Hc.
    + exact Hs.
    + vm_compute. vm_compute in Hi. apply Hi; reflexivity.
Defined.

(** C2 fails as stated: after ingesting [blank_answer_pdf], the question
    "질문입니까?" has a cached entry at similarity 1 >= 0.85, and
    [check_cache] returns its (empty) text, yet [invoke] answers from the
    RAG path with [cache_hit = False] and writes the new answer back. *)
Lemma cache_hit_with_empty_text_is_a_miss :
  let q := lit "질문입니까?" in
  let out := invoke W0 (Chain.init None) (questions q) m_blank in
  ft_search W0 (r m_blank) (encode_bytes q) 3
  = Ok [ {| doc_text := []; doc_source := lit "pdf_pre_cache";
            doc_score := 0%float |} ]
  /\ PrimFloat.leb 0.85%float (PrimFloat.sub 1%float 0%float) = true
  /\ fst (Cache.check_cache W0 q None (Some 0.85%float) m_blank) = Ok (Some [])
  /\ fst out
     = Ok {| answer := lit "답"; cache_hit := false; source := lit "RAG" |}
  /\ items (user_cache m_blank) = []
  /\ items (user_cache (snd out)) = [Cache.dynamic_key W0 q]
  /\ r m_blank !! Cache.dynamic_key W0 q = None
  /\ (text <$> r (snd out) !! Cache.dynamic_key W0 q) = Some (lit "답").
Proof. vm_compute. repeat split; reflexivity. Qed.

(** C3, as amended. When the lookup missed, retrieval produced a context
    and the LLM call raises [e], [invoke] returns, with [cache_hit = False]
    and [source = "RAG"], an answer that starts with the error mark: one
    fixed text when the message contains "Connection", another when its
    lower-cased message contains "timeout", and otherwise a fixed prefix
    followed by the message. Nothing is written: the index and the window
    are as before. *)
Theorem generation_failure_is_not_cached (W : World) (self : CAGRAGChain)
    (inputs : gmap pystr pystr) (m m1 m2 : Machine) (cached : option pystr)
    (context : pystr) (e : exn) :
  let question := question_of inputs in
  truthy question = true ->
  Cache.check_cache W question None (Some (cache_threshold self)) m
  = (Ok cached, m1) ->
  truthy_opt cached = false ->
  _retrieve_documents W question None m1 = (Ok context, m2) ->
  truthy context = true ->
  rag_chain_invoke W context question = Raise e ->
  let error_msg := str_of_exn e in
  let ans :=
    if contains error_msg (lit "Connection") then MSG_CONNECTION
    else if contains (lower W error_msg) (lit "timeout") then MSG_TIMEOUT
    else MSG_GENERIC_PREFIX ++ error_msg in
  let m' := record (LLM question) m2 in
  invoke W self inputs m
  = (Ok {| answer := ans; cache_hit := false; source := lit "RAG" |}, m')
  /\ startswith ans ERROR_MARK = true
  /\ same_cache m m'.
Proof.
  intros question Hq Hc Ht Hr Hctx Hllm error_msg ans m'.
  pose proof (failure_answer_marked W e) as Hmark.
  change (failure_answer W e) with ans in Hmark.
  split; [|split].
  - rewrite (invoke_miss W self inputs m m1 cached Hq Hc Ht).
    fold question. rewrite Hr, Hctx. cbn [negb].
    rewrite generate_answer_cases, Hllm.
    change (failure_answer W e) with ans. now rewrite Hmark.
  - exact Hmark.
  - apply (same_cache_trans m m1 m').
    + pose proof (check_cache_same_cache W question None
                    (Some (cache_threshold self)) m) as H.
      now rewrite Hc in H.
    + apply (same_cache_trans m1 m2 m'); [|apply same_cache_record].
      pose proof (retrieve_documents_same_cache W question None m1) as H.
      now rewrite Hr in H.
Qed.

Lemma generation_failure_is_not_cached_witness :
  let W := W_llm_fails (lit "Request Timeout") in
  let m := Cache.init ∅ 5 in
  let m1 := snd (Cache.check_cache W (lit "q") None (Some 0.85%float) m) in
  let m2 := snd (_retrieve_documents W (lit "q") None m1) in
  invoke W (Chain.init None) (questions (lit "q")) m
  = (Ok {| answer := MSG_TIMEOUT; cache_hit := false; source := lit "RAG" |},
     record (LLM (lit "q")) m2)
  /\ startswith MSG_TIMEOUT ERROR_MARK = true
  /\ same_cache m (record (LLM (lit "q")) m2).
Proof.
  intros W m m1 m2.
  pose proof (generation_failure_is_not_cached W (Chain.init None)
                (questions (lit "q")) m m1 m2 None
                (format_hits 0 one_hit) (Exception (lit "Request Timeout")))
    as H.
  vm_compute in H. vm_compute. apply H; reflexivity.
Defined.

(** C3 fails as stated: the answer is not a fixed string. A failure whose
    message is "timed out" (no "Connection", no "timeout") is answered with
    the prefix followed by that message, a failure "boom" with another text. *)
Lemma generation_failure_answer_varies :
  let m := Cache.init ∅ 5 in
  let run msg :=
    fst (invoke (W_llm_fails msg) (Chain.init None) (questions (lit "q")) m) in
  run (lit "timed out")
  = Ok {| answer := lit "❌ 답변 생성 중 오류: timed out"; cache_hit := false;
          source := lit "RAG" |}
  /\ run (lit "boom")
     = Ok {| answer := lit "❌ 답변 생성 중 오류: boom"; cache_hit := false;
             source := lit "RAG" |}
  /\ lit "❌ 답변 생성 중 오류: timed out" <> lit "❌ 답변 생성 중 오류: boom"
  /\ lit "❌ 답변 생성 중 오류: timed out" <> MSG_CONNECTION
  /\ lit "❌ 답변 생성 중 오류: timed out" <> MSG_TIMEOUT.
Proof. vm_compute. repeat split; try reflexivity; discriminate. Qed.

(** C7. When the lookup missed and retrieval fails (the query embedding or
    the document search raises) or returns no hits, [invoke] returns the
    fixed no-documents message with [cache_hit = False] and
    [source = "NONE"], and writes nothing. *)
Theorem no_documents_ends_the_chain (W : World) (self : CAGRAGChain)
    (inputs : gmap pystr pystr) (m m1 : Machine) (cached : option pystr) :
  let question := question_of inputs in
  truthy question = true ->
  Cache.check_cache W question None (Some (cache_threshold self)) m
  = (Ok cached, m1) ->
  truthy_opt cached = false ->
  ((exists e, embedding_model_encode W question = Raise e)
   \/ (exists v, embedding_model_encode W question = Ok v
                 /\ ((exists e, es_search W v 3 = Raise e)
                     \/ es_search W v 3 = Ok []))) ->
  exists m',
    invoke W self inputs m
    = (Ok {| answer := MSG_NO_DOCS; cache_hit := false; source := lit "NONE" |},
       m')
    /\ same_cache m m'.
Proof.
  intros question Hq Hc Ht Hret.
  pose proof (check_cache_same_cache W question None
                (Some (cache_threshold self)) m) as Hs1.
  rewrite Hc in Hs1. cbn [snd] in Hs1.
  pose proof (retrieve_documents_same_cache W question None m1) as Hs2.
  rewrite (invoke_miss W self inputs m m1 cached Hq Hc Ht). fold question.
  rewrite retrieve_documents_cases in Hs2 |- *. cbn [from_option id] in Hs2 |- *.
  destruct Hret as [[e He]|(v & Hv & [[e He]|Hnil])].
  - rewrite He in Hs2 |- *. cbn [snd negb truthy] in Hs2 |- *.
    eexists. split; [reflexivity|]. now apply (same_cache_trans m m1).
  - rewrite Hv in Hs2 |- *. cbv zeta in Hs2 |- *. rewrite He in Hs2 |- *.
    cbn [snd negb truthy] in Hs2 |- *.
    eexists. split; [reflexivity|]. now apply (same_cache_trans m m1).
  - rewrite Hv in Hs2 |- *. cbv zeta in Hs2 |- *. rewrite Hnil in Hs2 |- *.
    cbn [snd negb truthy] in Hs2 |- *.
    eexists. split; [reflexivity|]. now apply (same_cache_trans m m1).
Qed.

Lemma no_documents_ends_the_chain_witness :
  let m := Cache.init ∅ 5 in
  (exists m',
      invoke W_es_down (Chain.init None) (questions (lit "q")) m
      = (Ok {| answer := MSG_NO_DOCS; cache_hit := false;
               source := lit "NONE" |}, m')
      /\ same_cache m m')
  /\ (exists m',
         invoke W_es_empty (Chain.init None) (questions (lit "q")) m
         = (Ok {| answer := MSG_NO_DOCS; cache_hit := false;
                  source := lit "NONE" |}, m')
         /\ same_cache m m').
Proof.
  intros m. split.
  - apply (no_documents_ends_the_chain W_es_down (Chain.init None)
             (questions (lit "q")) m
             (snd (Cache.check_cache W_es_down (lit "q") None
                     (Some 0.85%float) m)) None).
    + vm_compute. reflexivity.
    + vm_compute. reflexivity.
    + reflexivity.
    + right. exists []. split; [reflexivity|]. left. eexists. reflexivity.
  - apply (no_documents_ends_the_chain W_es_empty (Chain.init None)
             (questions (lit "q")) m
             (snd (Cache.check_cache W_es_empty (lit "q") None
                     (Some 0.85%float) m)) None).
    + vm_compute. reflexivity.
    + vm_compute. reflexivity.
    + reflexivity.
    + right. exists []. split; [reflexivity|]. right. reflexivity.
Defined.

(** After a falsy lookup the next call is the query embedding of the
    retrieval stage, and no response of [invoke] reports a cache hit. *)
Lemma invoke_miss_trace (W : World) (self : CAGRAGChain)
    (inputs : gmap pystr pystr) (m m1 : Machine) (cached : option pystr) :
  let question := question_of inputs in
  truthy question = true ->
  Cache.check_cache W question None (Some (cache_threshold self)) m
  = (Ok cached, m1) ->
  truthy_opt cached = false ->
  (exists rest,
      log (snd (invoke W self inputs m)) = log m1 ++ EsEncode question :: rest)
  /\ (forall resp, fst (invoke W self inputs m) = Ok resp ->
                   cache_hit resp = false).
Proof.
  intros question Hq Hc Ht.
  rewrite (invoke_miss W self inputs m m1 cached Hq Hc Ht). fold question.
  rewrite retrieve_documents_cases. cbn [from_option id].
  destruct (embedding_model_encode W question) as [v|e].
  2:{ cbn [negb truthy fst snd]. split; [now exists []|].
      intros resp [= <-]. reflexivity. }
  cbv zeta.
  destruct (es_search W v 3) as [[|hit0 hits0]|e].
  1,3: cbn [negb truthy fst snd]; split;
       [exists [EsSearch 3%Z]; cbn [log record]; now rewrite <- app_assoc
       |intros resp [= <-]; reflexivity].
  destruct (well_formed (hit0 :: hits0)) as [hs|] eqn:Hwf.
  2:{ cbn [negb truthy fst snd]. split;
        [exists [EsSearch 3%Z]; cbn [log record]; now rewrite <- app_assoc
        |intros resp [= <-]; reflexivity]. }
  destruct (well_formed_cons hit0 hits0 hs Hwf) as (hit & hits & ->).
  change (negb (truthy (format_hits 0 (hit :: hits)))) with false. cbv iota.
  rewrite generate_answer_cases.
  set (m3 := record (LLM question)
               (record (EsSearch 3) (record (EsEncode question) m1))).
  assert (log m3 = log m1 ++ EsEncode question :: [EsSearch 3%Z; LLM question])
    as Hlog3 by (unfold m3; cbn [log record]; now rewrite <- !app_assoc).
  assert (forall ans,
             (exists rest,
                 log (snd (match (if negb (startswith ans ERROR_MARK)
                                  then Cache.save_dynamic_cache W question ans
                                  else ret tt) m3 with
                           | (Raise e, m4) => (Raise e, m4)
                           | (Ok _, m4) =>
                               (Ok {| answer := ans; cache_hit := false;
                                      source := lit "RAG" |}, m4)
                           end))
                 = log m1 ++ EsEncode question :: rest)
             /\ (forall resp,
                    fst (match (if negb (startswith ans ERROR_MARK)
                                then Cache.save_dynamic_cache W question ans
                                else ret tt) m3 with
                         | (Raise e, m4) => (Raise e, m4)
                         | (Ok _, m4) =>
                             (Ok {| answer := ans; cache_hit := false;
                                    source := lit "RAG" |}, m4)
                         end) = Ok resp ->
                    cache_hit resp = false)) as Htail.
  { intros ans. destruct (negb (startswith ans ERROR_MARK)).
    - pose proof (save_dynamic_cache_extends W question ans m3) as [more Hmore].
      destruct (Cache.save_dynamic_cache W question ans m3) as [[[]|e] m4];
        cbn [fst snd] in *.
      + split; [|intros resp [= <-]; reflexivity].
        exists ([EsSearch 3%Z; LLM question] ++ more).
        rewrite Hmore, Hlog3. now rewrite <- !app_assoc.
      + split; [|intros resp [=]].
        exists ([EsSearch 3%Z; LLM question] ++ more).
        rewrite Hmore, Hlog3. now rewrite <- !app_assoc.
    - unfold ret. cbn [fst snd]. split; [|intros resp [= <-]; reflexivity].
      now exists [EsSearch 3%Z; LLM question]. }
  destruct (rag_chain_invoke W (format_hits 0 (hit :: hits)) question)
    as [ans|e]; apply Htail.
Qed.

(** C4, as amended. [check_cache] called without a threshold uses 0.7; a
    chain built without a threshold looks up with 0.85. For a non-empty
    question and a nearest entry of similarity [sim] and non-empty text: the
    bare call returns the text when [sim >= 0.7]; the default chain returns
    it verbatim, with no write, when [sim >= 0.85], and reports no cache hit
    when [sim < 0.85]. The two defaults differ: a similarity of 0.8 is a hit
    for the first and a miss for the second. *)
Theorem default_thresholds_differ :
  Cache.DEFAULT_THRESHOLD = 0.7%float
  /\ cache_threshold (Chain.init None) = 0.85%float
  /\ (forall W user_query k m,
        Cache.check_cache W user_query k None m
        = Cache.check_cache W user_query k (Some 0.7%float) m)
  /\ (forall W inputs m q_emb d0 docs,
        let question := question_of inputs in
        let sim := PrimFloat.sub 1%float (doc_score d0) in
        let m' := record (FtSearch 3) (record (Encode question) m) in
        truthy question = true ->
        model_encode W question = Ok q_emb ->
        ft_search W (r m) q_emb 3 = Ok (d0 :: docs) ->
        truthy (doc_text d0) = true ->
        (PrimFloat.leb 0.7%float sim = true ->
         Cache.check_cache W question None None m = (Ok (Some (doc_text d0)), m'))
        /\ (PrimFloat.leb 0.85%float sim = true ->
            invoke W (Chain.init None) inputs m
            = (Ok {| answer := doc_text d0; cache_hit := true;
                     source := lit "CAG" |}, m')
            /\ same_cache m m')
        /\ (PrimFloat.leb 0.85%float sim = false ->
            forall resp,
              fst (invoke W (Chain.init None) inputs m) = Ok resp ->
              cache_hit resp = false))
  /\ (PrimFloat.leb Cache.DEFAULT_THRESHOLD (PrimFloat.sub 1%float 0.2%float) = true
      /\ PrimFloat.leb DEFAULT_CACHE_THRESHOLD (PrimFloat.sub 1%float 0.2%float) = false).
Proof.
  split; [reflexivity|]. split; [reflexivity|]. split; [reflexivity|].
  split; [|split; vm_compute; reflexivity].
  intros W inputs m q_emb d0 docs question sim m' Hq Henc Hsearch Htext.
  split; [|split].
  - intros Hsim. rewrite check_cache_cases, Henc. cbv zeta.
    cbn [from_option id]. change Cache.DEFAULT_K with 3%Z.
    rewrite Hsearch. change Cache.DEFAULT_THRESHOLD with 0.7%float.
    fold sim. now rewrite Hsim.
  - intros Hsim.
    destruct (lookup_hit W (Chain.init None) inputs m
                q_emb d0 docs Henc Hsearch Hsim) as (_ & Hs & Hi).
    split; [now apply Hi|exact Hs].
  - intros Hsim.
    apply (invoke_miss_trace W (Chain.init None) inputs m m' None Hq);
      [|reflexivity].
    rewrite check_cache_cases. fold question. rewrite Henc. cbv zeta.
    cbn [from_option id]. change Cache.DEFAULT_K with 3%Z. rewrite Hsearch.
    change (cache_threshold (Chain.init None)) with 0.85%float.
    fold sim. now rewrite Hsim.
Qed.

Lemma default_thresholds_differ_witness :
  let m := Cache.init ∅ 5 in
  Cache.check_cache W_near (lit "q") None None m
  = (Ok (Some (lit "캐시된 답변")),
     record (FtSearch 3) (record (Encode (lit "q")) m))
  /\ (forall resp,
        fst (invoke W_near (Chain.init None) (questions (lit "q")) m) = Ok resp ->
        cache_hit resp = false).
Proof.
  intros m.
  destruct default_thresholds_differ as (_ & _ & _ & H & _).
  destruct (H W_near (questions (lit "q")) m (encode_bytes (lit "q"))
              near_doc []) as (Hbare & _ & Hchain).
  - vm_compute. reflexivity.
  - reflexivity.
  - reflexivity.
  - reflexivity.
  - split.
    + vm_compute. vm_compute in Hbare. apply Hbare. reflexivity.
    + apply Hchain. vm_compute. reflexivity.
Defined.

(** C4 fails as stated: with the default thresholds, an entry of empty text
    at distance 0 is a hit (similarity 1 >= 0.85 >= 0.7) and the bare
    [check_cache] returns its text, yet the default chain does not end
    there: it answers from the RAG path and writes the new answer back. *)
Lemma default_chain_hit_with_empty_text_writes_back :
  let m := Cache.init ∅ 5 in
  let out := invoke W_empty_text (Chain.init None) (questions (lit "q")) m in
  ft_search W_empty_text (r m) (encode_bytes (lit "q")) 3 = Ok [empty_text_doc]
  /\ PrimFloat.leb DEFAULT_CACHE_THRESHOLD
       (PrimFloat.sub 1%float (doc_score empty_text_doc)) = true
  /\ fst (Cache.check_cache W_empty_text (lit "q") None None m)
     = Ok (Some (doc_text empty_text_doc))
  /\ fst out
     = Ok {| answer := lit "답"; cache_hit := false; source := lit "RAG" |}
  /\ items (user_cache m) = []
  /\ items (user_cache (snd out)) = [Cache.dynamic_key W_empty_text (lit "q")]
  /\ r m !! Cache.dynamic_key W_empty_text (lit "q") = None
  /\ (text <$> r (snd out) !! Cache.dynamic_key W_empty_text (lit "q"))
     = Some (lit "답").
Proof. vm_compute. repeat split; reflexivity. Qed.

(** C10. (1) If the nearest entry passes the threshold but its text is
    empty, [check_cache] returns the empty string and [invoke] carries on
    as after a miss: its next call is the retrieval stage's query embedding,
    no response reports a cache hit, and the outcome is the one it has when
    the index returns no document at all. (2) With an empty (or absent)
    question [invoke] returns the fixed prompt, [cache_hit = False],
    [source = "NONE"], makes no call and leaves the state untouched. *)
Theorem empty_text_and_empty_question (W : World) (self : CAGRAGChain)
    (inputs : gmap pystr pystr) (m : Machine) :
  let question := question_of inputs in
  (forall q_emb d0 docs,
      truthy question = true ->
      model_encode W question = Ok q_emb ->
      ft_search W (r m) q_emb 3 = Ok (d0 :: docs) ->
      PrimFloat.leb (cache_threshold self)
        (PrimFloat.sub 1%float (doc_score d0)) = true ->
      doc_text d0 = [] ->
      let m1 := record (FtSearch 3) (record (Encode question) m) in
      Cache.check_cache W question None (Some (cache_threshold self)) m
      = (Ok (Some []), m1)
      /\ (exists rest,
             log (snd (invoke W self inputs m))
             = log m ++ [Encode question; FtSearch 3%Z; EsEncode question] ++ rest)
      /\ (forall resp, fst (invoke W self inputs m) = Ok resp ->
                       cache_hit resp = false)
      /\ invoke W self inputs m
         = invoke (with_ft_search W (fun _ _ _ => Ok [])) self inputs m)
  /\ (truthy question = false ->
      invoke W self inputs m
      = (Ok {| answer := MSG_EMPTY_QUESTION; cache_hit := false;
               source := lit "NONE" |}, m)).
Proof.
  intros question. split; [|apply invoke_empty].
  intros q_emb d0 docs Hq Henc Hsearch Hsim Htext m1.
  destruct (lookup_hit W self inputs m q_emb d0 docs
              Henc Hsearch Hsim) as (Hc & _ & _).
  fold question in Hc. rewrite Htext in Hc. change Cache.DEFAULT_K with 3%Z in Hc.
  fold m1 in Hc.
  destruct (invoke_miss_trace W self inputs m m1 (Some []) Hq Hc eq_refl)
    as ([rest Hrest] & Hresp).
  split; [exact Hc|]. split; [|split; [exact Hresp|]].
  - exists rest. rewrite Hrest. unfold m1. cbn [log record].
    now rewrite <- !app_assoc.
  - rewrite (invoke_miss W self inputs m m1 (Some []) Hq Hc eq_refl).
    assert (Cache.check_cache (with_ft_search W (fun _ _ _ => Ok [])) question
              None (Some (cache_threshold self)) m = (Ok None, m1)) as Hc'.
    { rewrite check_cache_cases. cbn [model_encode with_ft_search ft_search].
      now rewrite Henc. }
    rewrite (invoke_miss (with_ft_search W (fun _ _ _ => Ok [])) self inputs m
               m1 None Hq Hc' eq_refl).
    reflexivity.
Qed.

Lemma empty_text_and_empty_question_witness :
  let m := Cache.init ∅ 5 in
  (forall resp,
      fst (invoke W_empty_text (Chain.init None) (questions (lit "q")) m) = Ok resp ->
      cache_hit resp = false)
  /\ invoke W_empty_text (Chain.init None) (questions []) m
     = (Ok {| answer := MSG_EMPTY_QUESTION; cache_hit := false;
              source := lit "NONE" |}, m).
Proof.
  intros m. split.
  - destruct (empty_text_and_empty_question W_empty_text (Chain.init None)
                (questions (lit "q")) m) as [H _].
    destruct (H (encode_bytes (lit "q")) empty_text_doc []) as (_ & _ & Hr & _).
    + vm_compute. reflexivity.
    + reflexivity.
    + reflexivity.
    + vm_compute. reflexivity.
    + reflexivity.
    + exact Hr.
  - destruct (empty_text_and_empty_question W_empty_text (Chain.init None)
                (questions []) m) as [_ H].
    apply H. vm_compute. reflexivity.
Defined.

End ChainClaims.

Section WindowClaims.

Import Demo.

(** [save_dynamic_cache] never removes a key from Redis: on a window within
    its capacity the branch of lines 221-224 is dead. *)
Lemma save_dynamic_cache_never_deletes (W : World) (query ans : pystr)
    (m : Machine) (key : pystr) :
  deque_ok (user_cache m) ->
  is_Some (r m !! key) ->
  is_Some (r (snd (Cache.save_dynamic_cache W query ans m)) !! key).
Proof.
  intros Hok Hkey.
  rewrite (save_dynamic_cache_cases W query ans m Hok). cbv zeta.
  destruct (model_encode W query) as [emb|e]; [|exact Hkey].
  destruct (hset_fault W _) as [e|]; [exact Hkey|].
  cbn [snd r].
  destruct (decide (Cache.dynamic_key W query = key)) as [->|Hne].
  - rewrite lookup_insert_eq. eauto.
  - now rewrite lookup_insert_ne.
Qed.

(** C1, evaluated where it breaks. With capacity 5, six saves of distinct
    queries "a" .. "f" each embed and write their entry; the window then
    holds the five most recent keys, but the key of "a", which left the
    window, is still in Redis with its answer, no [delete] was ever issued,
    and a later lookup of "a" returns the evicted answer. *)
Theorem evicted_key_stays_in_index :
  let m := save_all W0 six_saves (Cache.init ∅ 5) in
  items (user_cache m)
  = [lit "cache:dyn:98"; lit "cache:dyn:99"; lit "cache:dyn:100";
     lit "cache:dyn:101"; lit "cache:dyn:102"]
  /\ (text <$> r m !! lit "cache:dyn:97") = Some (lit "A")
  /\ log m
     = [Encode (lit "a"); HSet (lit "cache:dyn:97");
        Encode (lit "b"); HSet (lit "cache:dyn:98");
        Encode (lit "c"); HSet (lit "cache:dyn:99");
        Encode (lit "d"); HSet (lit "cache:dyn:100");
        Encode (lit "e"); HSet (lit "cache:dyn:101");
        Encode (lit "f"); HSet (lit "cache:dyn:102")]
  /\ existsb is_delete (log m) = false
  /\ fst (Cache.check_cache W0 (lit "a") None None m) = Ok (Some (lit "A")).
Proof. vm_compute. repeat split; reflexivity. Qed.

Lemma window_never_exceeds_capacity_witness :
  (length (items (user_cache (save_all W0 six_saves (Cache.init ∅ 5)))) <= 5)%nat.
Proof.
  apply window_never_exceeds_capacity.
  unfold six_saves. cbn [save_all].
  repeat apply reach_save. apply reach_init.
Defined.

End WindowClaims.

(* ================================================================== *)
(** * More about the ingestor *)
(* ================================================================== *)

Section IngestMore.

Import Ingest.

Lemma lstrip_split (s : pystr) :
  exists pre, s = pre ++ lstrip s /\ Forall (fun c => isspace c = true) pre.
Proof.
  induction s as [|c s IH]; simpl.
  - now exists [].
  - destruct (isspace c) eqn:Hc.
    + destruct IH as (pre & Hs & Hpre). exists (c :: pre). split.
      * simpl. now rewrite <- Hs.
      * now constructor.
    + now exists [].
Qed.

Lemma lstrip_head_ok (s : pystr) : head_ok (lstrip s).
Proof.
  induction s as [|c s IH]; simpl; [exact I|].
  destruct (isspace c) eqn:Hc; [exact IH|]. simpl. exact Hc.
Qed.

Lemma lstrip_fixed (s : pystr) : head_ok s -> lstrip s = s.
Proof. destruct s as [|c s]; simpl; [reflexivity|]. now intros ->. Qed.

Lemma rstrip_split (s : pystr) :
  exists post, s = rstrip s ++ post /\ Forall (fun c => isspace c = true) post.
Proof.
  unfold rstrip. destruct (lstrip_split (rev s)) as (pre & Hs & Hpre).
  exists (rev pre). split.
  - rewrite <- rev_app_distr, <- Hs. now rewrite rev_involutive.
  - rewrite Forall_forall in *. intros c Hc. apply Hpre.
    apply list_elem_of_In. apply list_elem_of_In in Hc. now apply in_rev.
Qed.

Lemma rstrip_head_ok (s : pystr) : head_ok s -> head_ok (rstrip s).
Proof.
  intros Hs. destruct (rstrip_split s) as (post & Heq & _).
  destruct (rstrip s) as [|c t] eqn:Hr; [exact I|].
  rewrite Heq in Hs. exact Hs.
Qed.

Lemma rstrip_idem (s : pystr) : rstrip (rstrip s) = rstrip s.
Proof.
  unfold rstrip. rewrite rev_involutive. f_equal.
  apply lstrip_fixed, lstrip_head_ok.
Qed.

Lemma strip_idem (s : pystr) : strip (strip s) = strip s.
Proof.
  unfold strip.
  rewrite (lstrip_fixed (rstrip (lstrip s)))
    by apply rstrip_head_ok, lstrip_head_ok.
  apply rstrip_idem.
Qed.

Lemma emitted_from_question_line (ls : list pystr) (p : QAPair) :
  emitted_from ls p -> In (question p) ls.
Proof.
  intros (pre & buf & post & -> & _). apply in_or_app. right. now left.
Qed.

(** X2. Whatever the document, every pair [extract_qa_pairs] emits has a
    non-empty question without surrounding white space, and an answer
    without surrounding white space. *)
Theorem emitted_pairs_are_stripped (pdf : list Page) (p : QAPair) :
  In p (extract_qa_pairs pdf) ->
  question p <> []
  /\ strip (question p) = question p
  /\ strip (answer p) = answer p.
Proof.
  intros Hp. rewrite extract_qa_pairs_pages in Hp.
  apply in_concat in Hp. destruct Hp as (ps & Hps & Hp).
  apply in_map_iff in Hps. destruct Hps as (pg & <- & _).
  pose proof (scan_lines_emitted (split_nl (merged_text pg))) as Hall.
  rewrite Forall_forall in Hall.
  assert (emitted_from (map strip (split_nl (merged_text pg))) p) as Hem
    by (apply Hall; now apply list_elem_of_In).
  pose proof (emitted_from_question_line _ _ Hem) as Hin.
  apply in_map_iff in Hin. destruct Hin as (raw & Hraw & _).
  destruct Hem as (pre & buf & post & _ & _ & Hq & _ & Ha).
  split; [|split].
  - intros Hnil. rewrite Hnil in Hq. vm_compute in Hq. discriminate.
  - rewrite <- Hraw. apply strip_idem.
  - rewrite Ha. apply strip_idem.
Qed.

Lemma emitted_pairs_are_stripped_witness :
  let p := {| question := lit "질문입니까?";
              answer := lit "답변1" ++ [NL] ++ lit "답변2" |} in
  question p <> [] /\ strip (question p) = question p
  /\ strip (answer p) = answer p.
Proof.
  intros p.
  apply (emitted_pairs_are_stripped
           [ {| extract_text := Some Demo.sample_text; extract_tables := [] |} ]).
  vm_compute. left. reflexivity.
Defined.

(** X1. Pages are scanned one by one: the pairs of a document are the
    pairs of its first pages followed by the pairs of its last pages, so a
    question still open at the end of a page takes no answer line from the
    next page. *)
Theorem pages_are_scanned_independently (pdf1 pdf2 : list Page) :
  extract_qa_pairs (pdf1 ++ pdf2) = extract_qa_pairs pdf1 ++ extract_qa_pairs pdf2.
Proof.
  rewrite !extract_qa_pairs_pages. now rewrite map_app, concat_app.
Qed.

Lemma flush_length (st : scan) :
  (length (flush st) <= length (qa_pairs st) + open_count st)%nat.
Proof.
  unfold flush, open_count.
  destruct (truthy_opt (current_q st)); simpl; [|lia].
  destruct (negb _); [rewrite length_app; simpl|]; lia.
Qed.

Lemma scan_line_count (st : scan) (raw : pystr) :
  (length (qa_pairs (scan_line st raw)) + open_count (scan_line st raw)
   <= length (qa_pairs st) + open_count st
      + (if is_question (strip raw) then 1 else 0))%nat.
Proof.
  destruct (is_question (strip raw)) eqn:Hl.
  - rewrite (scan_line_question st raw Hl). cbn [qa_pairs].
    pose proof (flush_length st).
    assert (open_count {| qa_pairs := flush st; current_q := Some (strip raw);
                          current_a := [] |} <= 1)%nat
      by (unfold open_count; destruct (truthy_opt _); lia).
    lia.
  - destruct (truthy_opt (current_q st)) eqn:Hq.
    + rewrite (scan_line_answer st raw Hl Hq). unfold open_count. simpl.
      rewrite Hq. lia.
    + rewrite (scan_line_closed st raw Hl Hq). lia.
Qed.

Lemma fold_scan_count (lines : list pystr) (st : scan) :
  (length (qa_pairs (fold_left scan_line lines st))
   + open_count (fold_left scan_line lines st)
   <= length (qa_pairs st) + open_count st + count_questions lines)%nat.
Proof.
  revert st. induction lines as [|raw lines IH]; intros st; simpl; [lia|].
  pose proof (IH (scan_line st raw)). pose proof (scan_line_count st raw). lia.
Qed.

Lemma scan_lines_count (lines : list pystr) :
  (length (scan_lines lines) <= count_questions lines)%nat.
Proof.
  unfold scan_lines.
  pose proof (flush_length (fold_left scan_line lines
                {| qa_pairs := []; current_q := None; current_a := [] |})).
  pose proof (fold_scan_count lines
                {| qa_pairs := []; current_q := None; current_a := [] |}) as H1.
  unfold open_count at 2 in H1. simpl in H1. lia.
Qed.

(** X3. A document never yields more pairs than it has question lines: the
    number of pairs of [extract_qa_pairs] is at most the number of lines,
    over all pages, that match the question pattern once stripped. A
    document without such a line yields nothing. *)
Theorem pairs_bounded_by_question_lines (pdf : list Page) :
  (length (extract_qa_pairs pdf)
   <= sum_list (map (fun pg => count_questions (split_nl (merged_text pg))) pdf))%nat
  /\ (sum_list (map (fun pg => count_questions (split_nl (merged_text pg))) pdf) = 0%nat
      -> extract_qa_pairs pdf = []).
Proof.
  assert (length (extract_qa_pairs pdf)
          <= sum_list (map (fun pg => count_questions (split_nl (merged_text pg)))
                         pdf))%nat as Hle.
  { rewrite extract_qa_pairs_pages.
    induction pdf as [|pg pdf IH]; simpl; [lia|].
    rewrite length_app.
    pose proof (scan_lines_count (split_nl (merged_text pg))). lia. }
  split; [exact Hle|].
  intros H0. rewrite H0 in Hle.
  destruct (extract_qa_pairs pdf); [reflexivity|simpl in Hle; lia].
Qed.

Lemma pairs_bounded_by_question_lines_witness :
  extract_qa_pairs
    [ {| extract_text := Some (lit "답변1" ++ [NL] ++ lit "답변2");
         extract_tables := [ [ [Some (lit "품목"); None] ] ] |};
      {| extract_text := None; extract_tables := [] |} ] = [].
Proof.
  apply (proj2 (pairs_bounded_by_question_lines _)). vm_compute. reflexivity.
Defined.

Lemma split_nl_cons (s : pystr) : exists h t, split_nl s = h :: t.
Proof.
  induction s as [|c s (h & t & IH)]; simpl; [now exists [], []|].
  destruct (c =? NL)%N; [now exists [], (split_nl s)|].
  rewrite IH. now exists (c :: h), t.
Qed.

Lemma split_nl_app (a b : pystr) :
  split_nl (a ++ NL :: b) = split_nl a ++ split_nl b.
Proof.
  induction a as [|c a IH]; [reflexivity|].
  cbn [app split_nl]. destruct (c =? NL)%N; rewrite IH; [reflexivity|].
  now destruct (split_nl_cons a) as (h & t & ->).
Qed.

(** X5. Tables are scanned after the body text. For a page with at least
    one table, the scanned lines are the lines of the text, then an empty
    line and the marker line "[표 데이터]", then the lines of the flattened
    tables; the marker is not a question line, so it never opens a question
    and, when a question is open, becomes part of its answer. A page without
    tables is scanned as its text alone. *)
Theorem table_rows_follow_the_text (pg : Page) :
  let text := match extract_text pg with
              | Some t => t
              | None => []
              end in
  (extract_tables pg = [] -> merged_text pg = text)
  /\ (extract_tables pg <> [] ->
      split_nl (merged_text pg)
      = split_nl text ++ [[]; lit "[표 데이터]"]
        ++ split_nl (join [NL; NL] (map table_text (extract_tables pg))))
  /\ is_question (strip (lit "[표 데이터]")) = false.
Proof.
  intros text.
  assert (merged_text pg
          = text ++ match map table_text (extract_tables pg) with
                    | [] => []
                    | _ => [NL; NL] ++ lit "[표 데이터]" ++ [NL]
                           ++ join [NL; NL] (map table_text (extract_tables pg))
                    end) as Hm.
  { unfold merged_text, text. destruct (extract_text pg) as [[|c t]|]; reflexivity. }
  split; [|split].
  - intros H. rewrite Hm, H. apply app_nil_r.
  - intros H. rewrite Hm.
    destruct (extract_tables pg) as [|tb tbs] eqn:Ht; [contradiction|].
    cbn [map]. set (rows := join [NL; NL] (table_text tb :: map table_text tbs)).
    change ([NL; NL] ++ lit "[표 데이터]" ++ [NL] ++ rows)
      with (NL :: NL :: lit "[표 데이터]" ++ NL :: rows).
    rewrite split_nl_app. apply (f_equal (app (split_nl text))).
    change (NL :: lit "[표 데이터]" ++ NL :: rows)
      with ([] ++ NL :: lit "[표 데이터]" ++ NL :: rows).
    rewrite (split_nl_app [] (lit "[표 데이터]" ++ NL :: rows)).
    rewrite split_nl_app.
    replace (split_nl (lit "[표 데이터]")) with [lit "[표 데이터]"]
      by (vm_compute; reflexivity).
    reflexivity.
  - vm_compute. reflexivity.
Qed.

Lemma table_rows_follow_the_text_witness :
  let pg := {| extract_text := Some (lit "품목 분류");
               extract_tables := [ [ [Some (lit "품목"); None];
                                     [Some (lit "쌀"); Some (lit "513%")] ] ] |} in
  split_nl (merged_text pg)
  = [lit "품목 분류"; []; lit "[표 데이터]"; lit "품목 | "; lit "쌀 | 513%"].
Proof.
  intros pg.
  rewrite (proj1 (proj2 (table_rows_follow_the_text pg))) by discriminate.
  vm_compute. reflexivity.
Defined.

Lemma star_match_app (p : N -> bool) (a b : pystr) (k : pystr -> bool) :
  Forall (fun c => p c = true) a -> k b = true -> star_match p (a ++ b) k = true.
Proof.
  intros Ha Hk. induction Ha as [|c a Hc _ IH]; simpl.
  - destruct b; simpl; now rewrite Hk.
  - rewrite Hc, IH. simpl. apply orb_true_r.
Qed.

Lemma lit_match_app (p b : pystr) (k : pystr -> bool) :
  lit_match p (p ++ b) k = k b.
Proof.
  induction p as [|c p IH]; simpl; [reflexivity|].
  now rewrite N.eqb_refl, IH.
Qed.

Lemma rmatch_alts (rs : list regex) (i : nat) (r : regex) (s : pystr)
    (k : pystr -> bool) :
  rs !! i = Some r -> rmatch r s k = true -> rmatch (alts rs) s k = true.
Proof.
  revert i. induction rs as [|r0 rs IH]; intros i Hi Hr; [discriminate|].
  unfold alts. cbn [foldr rmatch]. destruct i as [|i]; simpl in Hi.
  - injection Hi as ->. now rewrite Hr.
  - fold (alts rs). rewrite (IH i Hi Hr). apply orb_true_r.
Qed.

Lemma is_question_tail (a b : pystr) :
  one_line a ->
  rmatch pattern_tail b (fun _ => true) = true ->
  is_question (a ++ b) = true.
Proof.
  intros Ha Hb. unfold is_question, re_match.
  change (rmatch QUESTION_PATTERN (a ++ b) (fun _ => true))
    with (star_match dot (a ++ b) (fun s => rmatch pattern_tail s (fun _ => true))).
  now apply star_match_app.
Qed.

Lemma question_endings_match :
  forallb (fun e => rmatch pattern_tail e (fun _ => true)) question_endings = true.
Proof. vm_compute. reflexivity. Qed.

Lemma rmatch_tail_containing (rs : list regex) (i : nat) (p b : pystr) :
  rs !! i = Some (Cat (Lit p) (Cat (StarC dot) (Lit []))) ->
  one_line b ->
  rmatch (Cat (alts rs) (Cat Eol (Lit []))) (p ++ b) (fun _ => true) = true.
Proof.
  intros Hi Hb. cbn [rmatch].
  apply (rmatch_alts rs i _ _ _ Hi).
  cbn [rmatch]. rewrite lit_match_app.
  rewrite <- (app_nil_r b). apply star_match_app; [exact Hb|]. reflexivity.
Qed.

(** X4. Which lines open a question, whatever precedes on the line: a line
    that ends in "?", in the full-width "？", or in one of the listed polite
    endings or nouns ("절차", "방법", "통관", ...), and a line that contains
    "어떻게" or "요약" anywhere. *)
Theorem question_line_shapes (a b : pystr) :
  one_line a ->
  one_line b ->
  (forall e, In e question_endings -> is_question (a ++ e) = true)
  /\ is_question (a ++ lit "어떻게" ++ b) = true
  /\ is_question (a ++ lit "요약" ++ b) = true.
Proof.
  intros Ha Hb. split; [|split].
  - intros e He. apply is_question_tail; [exact Ha|].
    pose proof question_endings_match as H.
    rewrite forallb_forall in H. now apply H.
  - apply is_question_tail; [exact Ha|].
    unfold pattern_tail, QUESTION_PATTERN. cbn [cats foldr].
    apply (rmatch_tail_containing _ 5); [reflexivity|exact Hb].
  - apply is_question_tail; [exact Ha|].
    unfold pattern_tail, QUESTION_PATTERN. cbn [cats foldr].
    apply (rmatch_tail_containing _ 7); [reflexivity|exact Hb].
Qed.

Lemma question_line_shapes_witness :
  is_question (lit "개인통관고유부호 발급 " ++ lit "절차") = true
  /\ is_question (lit "해외직구는 " ++ lit "어떻게" ++ lit " 하나요") = true
  /\ is_question (lit "위 내용을 " ++ lit "요약" ++ lit "하면 다음과 같다") = true.
Proof.
  destruct (question_line_shapes (lit "개인통관고유부호 발급 ") (lit " 하나요"))
    as (H1 & H2 & _); [vm_compute; repeat constructor..|].
  destruct (question_line_shapes (lit "위 내용을 ") (lit "하면 다음과 같다"))
    as (_ & _ & H3); [vm_compute; repeat constructor..|].
  split; [|split].
  - apply H1. vm_compute. do 16 right. left. reflexivity.
  - exact H2.
  - exact H3.
Defined.

End IngestMore.

(* ================================================================== *)
(** * More about the cache *)
(* ================================================================== *)

Section CacheMore.

Import Demo.

(** X6. [check_cache] only reads: whatever the collaborators do, the Redis
    keyspace and the window are as before, and the only calls made are the
    query embedding and, if that returned, one index search. *)
Theorem check_cache_only_reads (W : World) (user_query : pystr) (k : option Z)
    (threshold : option float) (m : Machine) :
  let m' := snd (Cache.check_cache W user_query k threshold m) in
  same_cache m m'
  /\ (log m' = log m ++ [Encode user_query]
      \/ log m' = log m ++ [Encode user_query; FtSearch (default 3%Z k)]).
Proof.
  intros m'. split; [apply check_cache_same_cache|].
  unfold m'. rewrite check_cache_cases.
  destruct (model_encode W user_query) as [q_emb|e]; [|now left].
  right. cbv zeta.
  assert (forall x : result (option pystr),
             log (snd (x, record (FtSearch (default Cache.DEFAULT_K k))
                            (record (Encode user_query) m)))
             = log m ++ [Encode user_query; FtSearch (default 3%Z k)]) as H
    by (intros x; cbn [snd log record]; now rewrite <- app_assoc).
  destruct (ft_search W (r m) q_emb _) as [[|d0 docs]|e]; try apply H.
  destruct (PrimFloat.leb _ _); apply H.
Qed.

(** X7. [check_cache] returns a text only for a hit: if it returns
    [Some txt], then the embedding succeeded, the search returned at least
    one document, [txt] is the text of the first one, and that document's
    similarity [1 - score] reaches the threshold. Later documents of the
    result play no part. *)
Theorem check_cache_some_is_a_hit (W : World) (user_query : pystr)
    (k : option Z) (threshold : option float) (m : Machine) (txt : pystr) :
  fst (Cache.check_cache W user_query k threshold m) = Ok (Some txt) ->
  exists q_emb d0 docs,
    model_encode W user_query = Ok q_emb
    /\ ft_search W (r m) q_emb (default 3%Z k) = Ok (d0 :: docs)
    /\ doc_text d0 = txt
    /\ PrimFloat.leb (default 0.7%float threshold)
         (PrimFloat.sub 1%float (doc_score d0)) = true.
Proof.
  rewrite check_cache_cases.
  destruct (model_encode W user_query) as [q_emb|e]; [|discriminate].
  cbv zeta.
  destruct (ft_search W (r m) q_emb _) as [[|d0 docs]|e] eqn:Hs;
    try discriminate.
  destruct (PrimFloat.leb _ _) eqn:Hsim; [|discriminate].
  cbn [fst]. intros [= <-]. now exists q_emb, d0, docs.
Qed.

Lemma check_cache_some_is_a_hit_witness :
  exists q_emb d0 docs,
    model_encode W_hit (lit "q") = Ok q_emb
    /\ ft_search W_hit (r (Cache.init ∅ 5)) q_emb (default 3%Z None)
       = Ok (d0 :: docs)
    /\ doc_text d0 = lit "캐시된 답변"
    /\ PrimFloat.leb (default 0.7%float (Some 0.85%float))
         (PrimFloat.sub 1%float (doc_score d0)) = true.
Proof.
  apply (check_cache_some_is_a_hit W_hit (lit "q") None (Some 0.85%float)
           (Cache.init ∅ 5)).
  vm_compute. reflexivity.
Defined.

(** X8. A similarity below the threshold is a miss of the chain: when the
    nearest entry does not reach [cache_threshold] (this includes a score
    that is not a number), [check_cache] returns [None], the next call of
    [invoke] is the retrieval embedding, and no response reports a cache hit. *)
Theorem below_threshold_goes_to_retrieval (W : World) (self : Chain.CAGRAGChain)
    (inputs : gmap pystr pystr) (m : Machine) (q_emb : list Byte.byte)
    (d0 : Doc) (docs : list Doc) :
  let question := question_of inputs in
  truthy question = true ->
  model_encode W question = Ok q_emb ->
  ft_search W (r m) q_emb 3 = Ok (d0 :: docs) ->
  PrimFloat.leb (Chain.cache_threshold self)
    (PrimFloat.sub 1%float (doc_score d0)) = false ->
  fst (Cache.check_cache W question None (Some (Chain.cache_threshold self)) m)
  = Ok None
  /\ (exists rest,
         log (snd (Chain.invoke W self inputs m))
         = log m ++ [Encode question; FtSearch 3%Z; EsEncode question] ++ rest)
  /\ (forall resp, fst (Chain.invoke W self inputs m) = Ok resp ->
                   Chain.cache_hit resp = false).
Proof.
  intros question Hq Henc Hsearch Hsim.
  set (m1 := record (FtSearch 3) (record (Encode question) m)).
  assert (Cache.check_cache W question None (Some (Chain.cache_threshold self)) m
          = (Ok None, m1)) as Hc.
  { rewrite check_cache_cases, Henc. cbv zeta. cbn [from_option id].
    change Cache.DEFAULT_K with 3%Z. now rewrite Hsearch, Hsim. }
  destruct (invoke_miss_trace W self inputs m m1 None Hq Hc eq_refl)
    as ([rest Hrest] & Hresp).
  split; [now rewrite Hc|]. split; [|exact Hresp].
  exists rest. rewrite Hrest. unfold m1. cbn [log record].
  now rewrite <- !app_assoc.
Qed.

Lemma below_threshold_goes_to_retrieval_witness :
  fst (Cache.check_cache W_near (lit "q") None (Some 0.85%float) (Cache.init ∅ 5))
  = Ok None.
Proof.
  apply (below_threshold_goes_to_retrieval W_near (Chain.init None)
           (questions (lit "q")) (Cache.init ∅ 5) (encode_bytes (lit "q"))
           near_doc []); vm_compute; reflexivity.
Defined.

Lemma deque_append_lastn (d : deque) (x : pystr) (l : list pystr) :
  items d = lastn (maxlen d) l ->
  items (deque_append d x) = lastn (maxlen d) (l ++ [x]).
Proof.
  intros Hd. unfold deque_append. cbn [items]. rewrite Hd. unfold lastn.
  set (n := maxlen d). rewrite !length_app, length_drop. cbn [length].
  destruct (le_lt_dec n (length l)) as [Hge|Hlt].
  - replace (n <? length l - (length l - n) + 1)%nat with true
      by (symmetry; apply Nat.ltb_lt; lia).
    destruct (decide (n = 0%nat)) as [Hz|Hnz].
    + rewrite Hz, !Nat.sub_0_r.
      rewrite (drop_ge l (length l)) by lia.
      rewrite (drop_ge (l ++ [x])) by (rewrite length_app; simpl; lia).
      reflexivity.
    + rewrite (drop_app_le l [x] (length l + 1 - n)) by lia.
      replace (length l + 1 - n)%nat with (length l - n + 1)%nat by lia.
      rewrite <- (drop_drop l 1 (length l - n)).
      destruct (drop (length l - n) l) as [|y t] eqn:Hdrop; [|reflexivity].
      assert (length (drop (length l - n) l) = 0%nat) as H0 by now rewrite Hdrop.
      rewrite length_drop in H0. lia.
  - replace (n <? length l - (length l - n) + 1)%nat with false
      by (symmetry; apply Nat.ltb_ge; lia).
    replace (length l - n)%nat with 0%nat by lia.
    replace (length l + 1 - n)%nat with 0%nat by lia.
    reflexivity.
Qed.

Lemma lastn_all {A} (n : nat) (l : list A) :
  (length l <= n)%nat -> lastn n l = l.
Proof.
  intros H. unfold lastn. now replace (length l - n)%nat with 0%nat by lia.
Qed.

Lemma lastn_length {A} (n : nat) (l : list A) :
  (length (lastn n l) <= n)%nat.
Proof. unfold lastn. rewrite length_drop. lia. Qed.

(** X9. A save that goes through can be read back: on a window within its
    capacity, when the embedding and the write succeed,
    [save_dynamic_cache] returns normally, the entry under the query's key
    holds the answer with source "dynamic_cache", every other key is as it
    was, and the key is the newest item of the window (with capacity 0 the
    window stays empty while the entry is still written). *)
Theorem save_then_lookup (W : World) (query ans : pystr) (m : Machine)
    (emb : list Byte.byte) :
  deque_ok (user_cache m) ->
  model_encode W query = Ok emb ->
  hset_fault W (Cache.dynamic_key W query) = None ->
  let key := Cache.dynamic_key W query in
  let out := Cache.save_dynamic_cache W query ans m in
  fst out = Ok tt
  /\ r (snd out) !! key
     = Some {| embedding := emb; text := ans; source := lit "dynamic_cache" |}
  /\ (forall other, other <> key -> r (snd out) !! other = r m !! other)
  /\ (maxlen (user_cache m) <> 0%nat -> last (items (user_cache (snd out))) = Some key)
  /\ (maxlen (user_cache m) = 0%nat -> items (user_cache (snd out)) = []).
Proof.
  intros Hok Henc Hset key out. unfold out.
  rewrite (save_dynamic_cache_cases W query ans m Hok). cbv zeta.
  rewrite Henc, Hset. fold key. cbn [fst snd r user_cache].
  split; [reflexivity|]. split; [apply lookup_insert_eq|].
  split; [intros other Hne; now apply lookup_insert_ne|].
  pose proof (deque_append_lastn (user_cache m) key (items (user_cache m))) as Hl.
  rewrite (lastn_all _ _ Hok) in Hl. specialize (Hl eq_refl).
  rewrite Hl. split.
  - intros Hpos. unfold lastn. rewrite length_app. cbn [length].
    rewrite drop_app_le by (unfold deque_ok in Hok; lia).
    apply last_snoc.
  - intros Hzero. rewrite Hzero. unfold lastn. rewrite Nat.sub_0_r.
    now rewrite drop_all.
Qed.

Lemma save_then_lookup_witness :
  let out := Cache.save_dynamic_cache W0 (lit "a") (lit "A") (Cache.init ∅ 0) in
  fst out = Ok tt
  /\ (text <$> r (snd out) !! lit "cache:dyn:97") = Some (lit "A")
  /\ items (user_cache (snd out)) = [].
Proof.
  intros out.
  destruct (save_then_lookup W0 (lit "a") (lit "A") (Cache.init ∅ 0)
              (encode_bytes (lit "a")))
    as (H1 & H2 & _ & _ & H5).
  - unfold deque_ok. simpl. lia.
  - reflexivity.
  - reflexivity.
  - split; [exact H1|]. split.
    + vm_compute. reflexivity.
    + apply H5. reflexivity.
Defined.

Lemma save_all_window (W : World) (calls : list (pystr * pystr)) (m : Machine)
    (l : list pystr) :
  (forall q, succeeds (model_encode W q)) ->
  (forall key, hset_fault W key = None) ->
  items (user_cache m) = lastn (maxlen (user_cache m)) l ->
  items (user_cache (save_all W calls m))
  = lastn (maxlen (user_cache m))
      (l ++ map (fun c => Cache.dynamic_key W (fst c)) calls)
  /\ maxlen (user_cache (save_all W calls m)) = maxlen (user_cache m).
Proof.
  intros Henc Hset. revert m l.
  induction calls as [|[q a] calls IH]; intros m l Hm; cbn [save_all map].
  - now rewrite app_nil_r.
  - assert (deque_ok (user_cache m)) as Hok
      by (unfold deque_ok; rewrite Hm; apply lastn_length).
    destruct (Henc q) as [emb Hq].
    pose proof (save_dynamic_cache_cases W q a m Hok) as Hcase.
    cbv zeta in Hcase. rewrite Hq, Hset in Hcase.
    rewrite Hcase. cbn [snd fst].
    set (m1 := {| r := _; user_cache := _; log := _ |}).
    destruct (IH m1 (l ++ [Cache.dynamic_key W q])) as [H1 H2].
    { unfold m1. cbn [user_cache].
      rewrite (deque_append_maxlen (user_cache m)).
      now apply deque_append_lastn. }
    change (maxlen (user_cache m1)) with (maxlen (user_cache m)) in H1, H2.
    split; [|exact H2]. rewrite H1. now rewrite <- app_assoc.
Qed.

(** X10. The window is the tail of the history: when every embedding and
    every write succeeds, after any sequence of saves on a fresh cache of
    capacity [N] the window holds the keys of the last [N] saves, oldest
    first, repetitions included. *)
Theorem window_holds_last_keys (W : World) (store : gmap pystr Hash) (N : nat)
    (calls : list (pystr * pystr)) :
  (forall q, succeeds (model_encode W q)) ->
  (forall key, hset_fault W key = None) ->
  items (user_cache (save_all W calls (Cache.init store N)))
  = lastn N (map (fun c => Cache.dynamic_key W (fst c)) calls).
Proof.
  intros Henc Hset.
  destruct (save_all_window W calls (Cache.init store N) [] Henc Hset) as [H _];
    [reflexivity|exact H].
Qed.

Lemma window_holds_last_keys_witness :
  items (user_cache (save_all W0 six_saves (Cache.init ∅ 2)))
  = lastn 2 (map (fun c => Cache.dynamic_key W0 (fst c)) six_saves).
Proof.
  apply window_holds_last_keys.
  - intros q. eexists. reflexivity.
  - intros key. reflexivity.
Defined.

(** X12. A save that fails changes nothing: on a window within its
    capacity, if [save_dynamic_cache] raises (the embedding or the write
    failed), the Redis keyspace and the window are as before; the key is
    not appended. *)
Theorem failed_save_changes_nothing (W : World) (query ans : pystr)
    (m : Machine) (e : exn) :
  deque_ok (user_cache m) ->
  fst (Cache.save_dynamic_cache W query ans m) = Raise e ->
  same_cache m (snd (Cache.save_dynamic_cache W query ans m))
  /\ (model_encode W query = Raise e
      \/ hset_fault W (Cache.dynamic_key W query) = Some e).
Proof.
  intros Hok. rewrite (save_dynamic_cache_cases W query ans m Hok). cbv zeta.
  destruct (model_encode W query) as [emb|e'].
  - destruct (hset_fault W _) as [e'|]; [|discriminate].
    cbn [fst snd]. intros [= ->]. split; [now split|now right].
  - cbn [fst snd]. intros [= ->]. split; [now split|now left].
Qed.

Lemma failed_save_changes_nothing_witness :
  same_cache (Cache.init ∅ 5)
    (snd (Cache.save_dynamic_cache W_redis_down (lit "a") (lit "A")
            (Cache.init ∅ 5))).
Proof.
  apply (failed_save_changes_nothing W_redis_down (lit "a") (lit "A")
           (Cache.init ∅ 5) (Exception (lit "Connection refused"))).
  - unfold deque_ok. simpl. lia.
  - vm_compute. reflexivity.
Defined.

Lemma pre_cache_from_keeps_key (W : World) (qa_list : list Ingest.QAPair)
    (i : N) (m : Machine) (key : pystr) :
  is_Some (r m !! key) ->
  is_Some (r (snd (Cache.pre_cache_from W i qa_list m)) !! key).
Proof.
  revert i m. induction qa_list as [|qa rest IH]; intros i m Hkey; [exact Hkey|].
  cbn [Cache.pre_cache_from]. unfold bind, Cache._embed, Cache.hset, call.
  destruct (model_encode W (Ingest.question qa)) as [emb|e]; [|exact Hkey].
  destruct (hset_fault W _) as [e|]; [exact Hkey|].
  apply IH. cbn [r record].
  destruct (decide (lit "cache:pdf:" ++ str_of_N i = key)) as [->|Hne].
  - rewrite lookup_insert_eq. eauto.
  - now rewrite lookup_insert_ne.
Qed.

(** X11. Nothing is ever removed from Redis: in any state reached from a
    fresh cache, a key that is present is still present after any further
    [save_dynamic_cache], [pre_cache_pdf], [check_cache] or [invoke],
    whatever the collaborators do. The keyspace only grows. *)
Theorem keys_are_never_removed (N : nat) (m : Machine) (key : pystr) :
  reachable N m ->
  is_Some (r m !! key) ->
  (forall W query ans,
      is_Some (r (snd (Cache.save_dynamic_cache W query ans m)) !! key))
  /\ (forall W pdf, is_Some (r (snd (Cache.pre_cache_pdf W pdf m)) !! key))
  /\ (forall W query k threshold,
        is_Some (r (snd (Cache.check_cache W query k threshold m)) !! key))
  /\ (forall W self inputs,
        is_Some (r (snd (Chain.invoke W self inputs m)) !! key)).
Proof.
  intros Hreach Hkey.
  pose proof (reachable_window_inv N m Hreach) as [Hmax Hlen].
  assert (deque_ok (user_cache m)) as Hok by (unfold deque_ok; lia).
  split; [|split; [|split]].
  - intros W query ans. now apply save_dynamic_cache_never_deletes.
  - intros W pdf. now apply pre_cache_from_keeps_key.
  - intros W query k threshold.
    destruct (check_cache_same_cache W query k threshold m) as [Hr _].
    now rewrite Hr.
  - intros W self inputs.
    apply (invoke_preserves W self
             (fun m' => deque_ok (user_cache m') /\ is_Some (r m' !! key))
             inputs m); [| |now split].
    + intros m1 m2 [Hr Hu] [H1 H2]. now rewrite Hr, Hu.
    + intros query ans m1 [H1 H2]. split.
      * pose proof (window_inv_save (maxlen (user_cache m1)) W query ans m1)
          as [Hm Hl]; [split; [reflexivity|exact H1]|].
        unfold deque_ok. lia.
      * now apply save_dynamic_cache_never_deletes.
Qed.

Lemma keys_are_never_removed_witness :
  let m := save_all W0 six_saves (Cache.init ∅ 5) in
  is_Some (r (snd (Chain.invoke W0 (Chain.init None) (questions (lit "g")) m))
           !! lit "cache:dyn:97").
Proof.
  intros m.
  apply (keys_are_never_removed 5 m (lit "cache:dyn:97")).
  - unfold m, six_saves. cbn [save_all]. repeat apply reach_save. apply reach_init.
  - vm_compute. eauto.
Defined.

Lemma digits_inj (d1 d2 : Decimal.uint) : digits d1 = digits d2 -> d1 = d2.
Proof.
  revert d2. induction d1; intros d2 H; destruct d2; simpl in H;
    try discriminate; try reflexivity;
    injection H as H; f_equal; now apply IHd1.
Qed.

Lemma str_of_N_inj (a b : N) : str_of_N a = str_of_N b -> a = b.
Proof.
  intros H. apply DecimalN.Unsigned.to_uint_inj. now apply digits_inj.
Qed.

(** X13. Which queries share a key: two queries have the same dynamic key
    exactly when the absolute values of their hashes agree modulo 10^8. In
    particular two queries collide when their hashes are opposite numbers,
    or when their hashes differ by 10^8 and have the same sign (both at
    least 0, or both at most 0). Hashes of different sign that differ by
    10^8 need not collide: -1 and 99999999 give different keys. *)
Theorem dynamic_key_collisions (W : World) (q1 q2 : pystr) :
  (Cache.dynamic_key W q1 = Cache.dynamic_key W q2
   <-> (Z.abs (hash W q1) mod 100000000 = Z.abs (hash W q2) mod 100000000)%Z)
  /\ (hash W q2 = (- hash W q1)%Z ->
      Cache.dynamic_key W q1 = Cache.dynamic_key W q2)
  /\ ((0 <= hash W q1)%Z \/ (hash W q1 + 100000000 <= 0)%Z ->
      hash W q2 = (hash W q1 + 100000000)%Z ->
      Cache.dynamic_key W q1 = Cache.dynamic_key W q2)
  /\ (hash W q1 = (-1)%Z -> hash W q2 = 99999999%Z ->
      Cache.dynamic_key W q1 <> Cache.dynamic_key W q2).
Proof.
  assert (Cache.dynamic_key W q1 = Cache.dynamic_key W q2
          <-> (Z.abs (hash W q1) mod 100000000
               = Z.abs (hash W q2) mod 100000000)%Z) as Hiff.
  { unfold Cache.dynamic_key. split.
    - intros H. apply app_inv_head in H. apply str_of_N_inj in H.
      apply (f_equal Z.of_N) in H.
      rewrite !Z2N.id in H by (apply Z.mod_pos_bound; lia). exact H.
    - intros H. now rewrite H. }
  split; [exact Hiff|]. split; [|split].
  - intros H. apply Hiff. now rewrite H, Z.abs_opp.
  - intros Hsign H. apply Hiff. rewrite H. destruct Hsign as [Hpos|Hneg].
    + rewrite !Z.abs_eq by lia. symmetry.
      replace (hash W q1 + 100000000)%Z with (hash W q1 + 1 * 100000000)%Z
        by lia.
      apply Z.mod_add. lia.
    + rewrite !Z.abs_neq by lia. symmetry.
      replace (- (hash W q1 + 100000000))%Z
        with (- hash W q1 + (-1) * 100000000)%Z by lia.
      apply Z.mod_add. lia.
  - intros H1 H2 Hkey. apply Hiff in Hkey. rewrite H1, H2 in Hkey.
    vm_compute in Hkey. discriminate Hkey.
Qed.

Lemma dynamic_key_collisions_witness :
  Cache.dynamic_key W_opposite (lit "a") = Cache.dynamic_key W_opposite (lit "b").
Proof.
  apply (proj1 (proj2 (dynamic_key_collisions W_opposite (lit "a") (lit "b")))).
  vm_compute. reflexivity.
Defined.

(** X14. When two saves collide the last one wins, and the window counts
    the key twice: after [save_dynamic_cache(q1, a1)] and
    [save_dynamic_cache(q2, a2)] with the same key, both succeeding, the
    entry under the key holds [a2], and the window is the last [maxlen]
    items of the old window followed by the key, twice. *)
Theorem colliding_saves_overwrite (W : World) (q1 a1 q2 a2 : pystr) (m : Machine)
    (emb1 emb2 : list Byte.byte) :
  deque_ok (user_cache m) ->
  Cache.dynamic_key W q1 = Cache.dynamic_key W q2 ->
  model_encode W q1 = Ok emb1 ->
  model_encode W q2 = Ok emb2 ->
  hset_fault W (Cache.dynamic_key W q1) = None ->
  let key := Cache.dynamic_key W q1 in
  let m1 := snd (Cache.save_dynamic_cache W q1 a1 m) in
  let m2 := snd (Cache.save_dynamic_cache W q2 a2 m1) in
  r m2 !! key
  = Some {| embedding := emb2; text := a2; source := lit "dynamic_cache" |}
  /\ items (user_cache m2)
     = lastn (maxlen (user_cache m)) (items (user_cache m) ++ [key; key])
  /\ dom (r m2) = {[ key ]} ∪ dom (r m).
Proof.
  intros Hok Hkey Henc1 Henc2 Hset key m1 m2.
  assert (m1 = {| r := <[key := {| embedding := emb1; text := a1;
                                    source := lit "dynamic_cache" |}]> (r m);
                  user_cache := deque_append (user_cache m) key;
                  log := log m ++ [Encode q1; HSet key] |}) as Hm1.
  { unfold m1. rewrite (save_dynamic_cache_cases W q1 a1 m Hok). cbv zeta.
    now rewrite Henc1, Hset. }
  assert (deque_ok (user_cache m1)) as Hok1
    by (rewrite Hm1; cbn [user_cache]; now apply deque_append_ok).
  assert (m2 = {| r := <[key := {| embedding := emb2; text := a2;
                                    source := lit "dynamic_cache" |}]> (r m1);
                  user_cache := deque_append (user_cache m1) key;
                  log := log m1 ++ [Encode q2; HSet key] |}) as Hm2.
  { unfold m2. rewrite (save_dynamic_cache_cases W q2 a2 m1 Hok1). cbv zeta.
    rewrite <- Hkey. now rewrite Henc2, Hset. }
  rewrite Hm2. cbn [r user_cache]. split; [apply lookup_insert_eq|]. split.
  - rewrite Hm1. cbn [user_cache].
    replace (items (user_cache m) ++ [key; key])
      with ((items (user_cache m) ++ [key]) ++ [key])
      by now rewrite <- app_assoc.
    rewrite <- (deque_append_maxlen (user_cache m) key).
    apply deque_append_lastn. rewrite (deque_append_maxlen (user_cache m)).
    apply deque_append_lastn. symmetry. now apply lastn_all.
  - rewrite Hm1. cbn [r]. now rewrite insert_insert_eq, dom_insert_L.
Qed.

Lemma colliding_saves_overwrite_witness :
  let m1 := snd (Cache.save_dynamic_cache W_opposite (lit "a") (lit "A")
                   (Cache.init ∅ 5)) in
  let m2 := snd (Cache.save_dynamic_cache W_opposite (lit "b") (lit "B") m1) in
  (text <$> r m2 !! lit "cache:dyn:97") = Some (lit "B")
  /\ items (user_cache m2) = [lit "cache:dyn:97"; lit "cache:dyn:97"].
Proof.
  intros m1 m2.
  destruct (colliding_saves_overwrite W_opposite (lit "a") (lit "A") (lit "b")
              (lit "B") (Cache.init ∅ 5) (encode_bytes (lit "a"))
              (encode_bytes (lit "b")))
    as (H1 & H2 & _).
  - unfold deque_ok. simpl. lia.
  - vm_compute. reflexivity.
  - reflexivity.
  - reflexivity.
  - reflexivity.
  - assert (Cache.dynamic_key W_opposite (lit "a") = lit "cache:dyn:97") as Hk
      by (vm_compute; reflexivity).
    rewrite Hk in H1, H2. fold m1 m2 in H1, H2. split.
    + now rewrite H1.
    + rewrite H2. vm_compute. reflexivity.
Defined.

Lemma dynamic_key_not_pdf_key (W : World) (query : pystr) (i : N) :
  Cache.dynamic_key W query <> pdf_key i.
Proof.
  unfold Cache.dynamic_key, pdf_key.
  generalize (str_of_N (Z.to_N (Z.abs (hash W query) mod 100000000))).
  generalize (str_of_N i). intros x y H. vm_compute in H. discriminate H.
Qed.

(** The state after the loop of [pre_cache_pdf] from index [i], when every
    embedding and every write succeeds. *)
Lemma pre_cache_from_ok (W : World) (qa_list : list Ingest.QAPair) (i : N)
    (m : Machine) :
  (forall q, succeeds (model_encode W q)) ->
  (forall key, hset_fault W key = None) ->
  let out := Cache.pre_cache_from W i qa_list m in
  fst out = Ok tt
  /\ (forall j p, qa_list !! j = Some p ->
       exists emb,
         model_encode W (Ingest.question p) = Ok emb
         /\ r (snd out) !! pdf_key (i + N.of_nat j)
            = Some {| embedding := emb; text := Ingest.answer p;
                      source := lit "pdf_pre_cache" |})
  /\ (forall key,
        (forall j, (j < length qa_list)%nat -> key <> pdf_key (i + N.of_nat j)) ->
        r (snd out) !! key = r m !! key).
Proof.
  intros Henc Hset. revert i m.
  induction qa_list as [|qa rest IH]; intros i m out.
  - split; [reflexivity|]. split; [intros j p H; discriminate|reflexivity].
  - unfold out. cbn [Cache.pre_cache_from].
    unfold bind, Cache._embed, Cache.hset, call.
    destruct (Henc (Ingest.question qa)) as [emb Hemb]. rewrite Hemb, Hset.
    fold (pdf_key i).
    set (m1 := record (HSet (pdf_key i)) _).
    destruct (IH (i + 1)%N m1) as (Hfst & Hget & Hframe).
    assert (forall j, pdf_key i <> pdf_key (i + 1 + N.of_nat j)) as Hfresh.
    { intros j H. unfold pdf_key in H. apply app_inv_head in H.
      apply str_of_N_inj in H. lia. }
    split; [exact Hfst|]. split.
    + intros [|j] p Hj; simpl in Hj.
      * injection Hj as <-. exists emb. split; [exact Hemb|].
        rewrite N.add_0_r. rewrite Hframe by (intros j _; apply Hfresh).
        unfold m1. cbn [r record]. apply lookup_insert_eq.
      * destruct (Hget j p Hj) as (emb' & He & Hr). exists emb'.
        split; [exact He|].
        replace (i + N.of_nat (S j))%N with (i + 1 + N.of_nat j)%N by lia.
        exact Hr.
    + intros key Hkey. rewrite Hframe.
      * unfold m1. cbn [r record]. apply lookup_insert_ne.
        specialize (Hkey 0%nat). rewrite N.add_0_r in Hkey.
        intros H. apply Hkey; [simpl; lia|now symmetry].
      * intros j Hj.
        replace (i + 1 + N.of_nat j)%N with (i + N.of_nat (S j))%N by lia.
        apply Hkey. simpl. lia.
Qed.

(** Keys that are not pre-cache keys are left alone by the loop of
    [pre_cache_pdf], wherever it stops. *)
Lemma pre_cache_from_frame (W : World) (qa_list : list Ingest.QAPair) (i : N)
    (m : Machine) (key : pystr) :
  (forall j, key <> pdf_key j) ->
  r (snd (Cache.pre_cache_from W i qa_list m)) !! key = r m !! key.
Proof.
  intros Hkey. revert i m.
  induction qa_list as [|qa rest IH]; intros i m; [reflexivity|].
  cbn [Cache.pre_cache_from]. unfold bind, Cache._embed, Cache.hset, call.
  destruct (model_encode W (Ingest.question qa)) as [emb|e]; [|reflexivity].
  destruct (hset_fault W _) as [e|]; [reflexivity|].
  rewrite IH. cbn [r record]. apply lookup_insert_ne.
  fold (pdf_key i). intros H. now apply (Hkey i).
Qed.

(** X15. Pre-cached and dynamic entries never share a key, so neither
    kind of write touches the other kind: on a window within its capacity
    [save_dynamic_cache] leaves every "cache:pdf:i" entry as it was, and
    [pre_cache_pdf], whether it completes or fails part-way, leaves every
    dynamic entry as it was. *)
Theorem entries_do_not_mix (W W' : World) (query ans : pystr)
    (pdf : list Ingest.Page) (i : N) (m : Machine) :
  Cache.dynamic_key W query <> pdf_key i
  /\ (deque_ok (user_cache m) ->
      r (snd (Cache.save_dynamic_cache W query ans m)) !! pdf_key i
      = r m !! pdf_key i)
  /\ r (snd (Cache.pre_cache_pdf W' pdf m)) !! Cache.dynamic_key W query
     = r m !! Cache.dynamic_key W query.
Proof.
  split; [apply dynamic_key_not_pdf_key|]. split.
  - intros Hok. rewrite (save_dynamic_cache_cases W query ans m Hok). cbv zeta.
    destruct (model_encode W query) as [emb|e]; [|reflexivity].
    destruct (hset_fault W _) as [e|]; [reflexivity|].
    cbn [snd r]. apply lookup_insert_ne. apply dynamic_key_not_pdf_key.
  - unfold Cache.pre_cache_pdf. apply pre_cache_from_frame.
    intros j. apply dynamic_key_not_pdf_key.
Qed.

Lemma entries_do_not_mix_witness :
  r (snd (Cache.save_dynamic_cache W0 (lit "a") (lit "A") m_blank)) !! pdf_key 0
  = r m_blank !! pdf_key 0.
Proof.
  apply (proj1 (proj2 (entries_do_not_mix W0 W0 (lit "a") (lit "A") [] 0
                         m_blank))).
  unfold deque_ok. vm_compute. lia.
Defined.

(** X16. Ingestion can be read back: when every embedding and every write
    succeeds, [pre_cache_pdf] returns normally; pair number [j] of
    [extract_qa_pairs] is stored under "cache:pdf:j" with the embedding of
    its question, its answer as text and source "pdf_pre_cache"; every key
    that is not one of these is as it was (entries of an earlier, longer
    ingestion stay); and the window is untouched. *)
Theorem pre_cache_then_lookup (W : World) (pdf : list Ingest.Page) (m : Machine) :
  (forall q, succeeds (model_encode W q)) ->
  (forall key, hset_fault W key = None) ->
  let qa_list := Ingest.extract_qa_pairs pdf in
  let out := Cache.pre_cache_pdf W pdf m in
  fst out = Ok tt
  /\ (forall j p, qa_list !! j = Some p ->
       exists emb,
         model_encode W (Ingest.question p) = Ok emb
         /\ r (snd out) !! pdf_key (N.of_nat j)
            = Some {| embedding := emb; text := Ingest.answer p;
                      source := lit "pdf_pre_cache" |})
  /\ (forall key,
        (forall j, (j < length qa_list)%nat -> key <> pdf_key (N.of_nat j)) ->
        r (snd out) !! key = r m !! key)
  /\ user_cache (snd out) = user_cache m.
Proof.
  intros Henc Hset qa_list out. unfold out, Cache.pre_cache_pdf. fold qa_list.
  destruct (pre_cache_from_ok W qa_list 0 m Henc Hset) as (H1 & H2 & H3).
  split; [exact H1|]. split; [exact H2|]. split; [exact H3|].
  apply pre_cache_from_user_cache.
Qed.

Lemma pre_cache_then_lookup_witness :
  let out := Cache.pre_cache_pdf W0
               [ {| Ingest.extract_text := Some sample_text;
                    Ingest.extract_tables := [] |} ] (Cache.init ∅ 5) in
  fst out = Ok tt
  /\ user_cache (snd out) = user_cache (Cache.init ∅ 5).
Proof.
  intros out.
  destruct (pre_cache_then_lookup W0
              [ {| Ingest.extract_text := Some sample_text;
                   Ingest.extract_tables := [] |} ] (Cache.init ∅ 5))
    as (H1 & _ & _ & H4).
  - intros q. eexists. reflexivity.
  - intros key. reflexivity.
  - split; [exact H1|exact H4].
Defined.

End CacheMore.

(* ================================================================== *)
(** * More about the chain *)
(* ================================================================== *)

Section ChainMore.

Import Chain Demo.

Lemma invoke_lookup_raises (W : World) (self : CAGRAGChain)
    (inputs : gmap pystr pystr) (m m1 : Machine) (e : exn) :
  truthy (question_of inputs) = true ->
  Cache.check_cache W (question_of inputs) None (Some (cache_threshold self)) m
  = (Raise e, m1) ->
  invoke W self inputs m = (Raise e, m1).
Proof.
  intros Hq Hc. unfold invoke, bind. cbv zeta. fold (question_of inputs).
  rewrite Hq; cbn [negb]; cbv beta. now rewrite Hc.
Qed.

(** Every run of [invoke] on a window within its capacity ends in one of
    the seven ways of [invoke_outcome]. *)
Lemma invoke_outcomes (W : World) (self : CAGRAGChain)
    (inputs : gmap pystr pystr) (m : Machine) :
  deque_ok (user_cache m) ->
  invoke_outcome W (question_of inputs) m
    (fst (invoke W self inputs m)) (snd (invoke W self inputs m)).
Proof.
  intros Hok. set (q := question_of inputs).
  destruct (truthy q) eqn:Hq.
  2:{ rewrite (invoke_empty W self inputs m Hq). now apply out_empty. }
  pose proof (check_cache_same_cache W q None (Some (cache_threshold self)) m)
    as Hs1.
  pose proof (check_cache_cases W q None (Some (cache_threshold self)) m) as Hcc.
  destruct (Cache.check_cache W q None (Some (cache_threshold self)) m)
    as [[cached|e] m1] eqn:Hc; cbn [snd] in Hs1.
  2:{ rewrite (invoke_lookup_raises W self inputs m m1 e Hq Hc). cbn [fst snd].
      apply out_lookup_raises; [exact Hq| |exact Hs1].
      cbv zeta in Hcc.
      destruct (model_encode W q) as [emb|e']; [|congruence].
      destruct (ft_search W (r m) emb _) as [[|d0 docs]|e']; try discriminate.
      destruct (PrimFloat.leb _ _); discriminate. }
  destruct (truthy_opt cached) eqn:Ht.
  { destruct cached as [c|]; [|discriminate].
    rewrite (invoke_hit W self inputs m m1 c Hq Hc Ht). now apply out_hit. }
  rewrite (invoke_miss W self inputs m m1 cached Hq Hc Ht). fold q.
  pose proof (retrieve_documents_same_cache W q None m1) as Hs2.
  pose proof (retrieve_documents_cases W q None m1) as Hrc.
  destruct (_retrieve_documents W q None m1) as [[context|e] m2];
    cbn [snd] in Hs2.
  2:{ exfalso. cbv zeta in Hrc.
      destruct (embedding_model_encode W q) as [v|e']; [|discriminate].
      destruct (es_search W v _) as [[|hit hits]|e']; try discriminate.
      destruct (well_formed (hit :: hits)); discriminate. }
  assert (same_cache m m2) as Hs12 by now apply (same_cache_trans m m1 m2).
  destruct (negb (truthy context)); cbn [fst snd]; [now apply out_no_docs|].
  pose proof (generate_answer_same_cache W q context m2) as Hs3.
  pose proof (generate_answer_cases W q context m2) as Hgc.
  destruct (_generate_answer W q context m2) as [[ans|e] m3]; cbn [snd] in Hs3.
  2:{ exfalso. destruct (rag_chain_invoke W context q); discriminate. }
  assert (same_cache m m3) as Hs13 by now apply (same_cache_trans m m2 m3).
  destruct (startswith ans ERROR_MARK) eqn:Hmark; cbn [negb].
  { unfold ret. cbn [fst snd]. now apply out_not_cached. }
  assert (deque_ok (user_cache m3)) as Hok3
    by (destruct Hs13 as [_ Hu]; now rewrite Hu).
  rewrite (save_dynamic_cache_cases W q ans m3 Hok3). cbv zeta.
  destruct Hs13 as [Hr3 Hu3].
  destruct (model_encode W q) as [emb|e] eqn:Henc.
  - destruct (hset_fault W (Cache.dynamic_key W q)) as [e|] eqn:Hset;
      cbn [fst snd].
    + apply (out_save_raises W q m ans e); [exact Hq|exact Hmark|now right|].
      split; cbn [r user_cache record]; assumption.
    + apply (out_cached W q m ans emb); [exact Hq|exact Hmark|exact Henc| |].
      * cbn [r]. now rewrite Hr3.
      * cbn [user_cache]. now rewrite Hu3.
  - cbn [fst snd].
    apply (out_save_raises W q m ans e); [exact Hq|exact Hmark|now left|].
    split; cbn [r user_cache record]; assumption.
Qed.

(** X17. The write-back path: when the lookup missed, retrieval produced
    a context, the LLM returned [llm_out] whose stripped text does not start
    with the error mark, and the embedding and the Redis write succeed,
    [invoke] returns the stripped text with [cache_hit = False] and
    [source = "RAG"], stores it under the question's dynamic key with
    source "dynamic_cache", and appends that key to the window. *)
Theorem generated_answer_is_cached (W : World) (self : CAGRAGChain)
    (inputs : gmap pystr pystr) (m m1 m2 : Machine) (cached : option pystr)
    (context llm_out : pystr) (emb : list Byte.byte) :
  let question := question_of inputs in
  let key := Cache.dynamic_key W question in
  deque_ok (user_cache m) ->
  truthy question = true ->
  Cache.check_cache W question None (Some (cache_threshold self)) m
  = (Ok cached, m1) ->
  truthy_opt cached = false ->
  _retrieve_documents W question None m1 = (Ok context, m2) ->
  truthy context = true ->
  rag_chain_invoke W context question = Ok llm_out ->
  startswith (strip llm_out) ERROR_MARK = false ->
  model_encode W question = Ok emb ->
  hset_fault W key = None ->
  fst (invoke W self inputs m)
  = Ok {| answer := strip llm_out; cache_hit := false; source := lit "RAG" |}
  /\ r (snd (invoke W self inputs m))
     = <[key := {| embedding := emb; text := strip llm_out;
                   Eff.source := lit "dynamic_cache" |}]> (r m)
  /\ user_cache (snd (invoke W self inputs m))
     = deque_append (user_cache m) key.
Proof.
  intros question key Hok Hq Hc Ht Hr Hctx Hllm Hmark Henc Hset.
  rewrite (invoke_miss W self inputs m m1 cached Hq Hc Ht). fold question.
  rewrite Hr, Hctx. cbn [negb]. rewrite generate_answer_cases, Hllm, Hmark.
  cbn [negb].
  pose proof (check_cache_same_cache W question None
                (Some (cache_threshold self)) m) as Hs1.
  rewrite Hc in Hs1. cbn [snd] in Hs1.
  pose proof (retrieve_documents_same_cache W question None m1) as Hs2.
  rewrite Hr in Hs2. cbn [snd] in Hs2.
  destruct Hs1 as [Hr1 Hu1]. destruct Hs2 as [Hr2 Hu2].
  set (m3 := record (LLM question) m2).
  assert (deque_ok (user_cache m3)) as Hok3
    by (unfold m3; cbn [user_cache record]; now rewrite Hu2, Hu1).
  rewrite (save_dynamic_cache_cases W question (strip llm_out) m3 Hok3).
  cbv zeta. fold key. rewrite Henc, Hset. cbn [fst snd r user_cache].
  unfold m3. cbn [r user_cache record]. rewrite Hr2, Hr1, Hu2, Hu1.
  repeat split; reflexivity.
Qed.

Lemma generated_answer_is_cached_witness :
  let out := invoke W0 (Chain.init None) (questions (lit "q")) (Cache.init ∅ 5) in
  fst out = Ok {| answer := lit "답"; cache_hit := false; source := lit "RAG" |}
  /\ items (user_cache (snd out)) = [lit "cache:dyn:113"].
Proof.
  intros out.
  pose proof (generated_answer_is_cached W0 (Chain.init None)
                (questions (lit "q")) (Cache.init ∅ 5)
                (snd (Cache.check_cache W0 (lit "q") None (Some 0.85%float)
                        (Cache.init ∅ 5)))
                (snd (_retrieve_documents W0 (lit "q") None
                        (snd (Cache.check_cache W0 (lit "q") None
                                (Some 0.85%float) (Cache.init ∅ 5)))))
                None (format_hits 0 one_hit) (lit "답")
                (encode_bytes (lit "q"))) as H.
  destruct H as (H1 & _ & H3).
  - unfold deque_ok. simpl. lia.
  - vm_compute. reflexivity.
  - vm_compute. reflexivity.
  - reflexivity.
  - vm_compute. reflexivity.
  - vm_compute. reflexivity.
  - reflexivity.
  - vm_compute. reflexivity.
  - reflexivity.
  - reflexivity.
  - fold out in H1, H3. split.
    + rewrite H1. vm_compute. reflexivity.
    + rewrite H3. vm_compute. reflexivity.
Defined.

(** X18. An LLM answer that itself begins with the error mark is treated
    like a failure: [invoke] returns it (stripped) with [source = "RAG"] but
    writes nothing. *)
Theorem marked_answer_is_not_cached (W : World) (self : CAGRAGChain)
    (inputs : gmap pystr pystr) (m m1 m2 : Machine) (cached : option pystr)
    (context llm_out : pystr) :
  let question := question_of inputs in
  truthy question = true ->
  Cache.check_cache W question None (Some (cache_threshold self)) m
  = (Ok cached, m1) ->
  truthy_opt cached = false ->
  _retrieve_documents W question None m1 = (Ok context, m2) ->
  truthy context = true ->
  rag_chain_invoke W context question = Ok llm_out ->
  startswith (strip llm_out) ERROR_MARK = true ->
  invoke W self inputs m
  = (Ok {| answer := strip llm_out; cache_hit := false; source := lit "RAG" |},
     record (LLM question) m2)
  /\ same_cache m (record (LLM question) m2).
Proof.
  intros question Hq Hc Ht Hr Hctx Hllm Hmark. split.
  - rewrite (invoke_miss W self inputs m m1 cached Hq Hc Ht). fold question.
    rewrite Hr, Hctx. cbn [negb]. rewrite generate_answer_cases, Hllm, Hmark.
    reflexivity.
  - pose proof (check_cache_same_cache W question None
                  (Some (cache_threshold self)) m) as Hs1.
    rewrite Hc in Hs1.
    pose proof (retrieve_documents_same_cache W question None m1) as Hs2.
    rewrite Hr in Hs2.
    apply (same_cache_trans m m1); [exact Hs1|].
    apply (same_cache_trans m1 m2); [exact Hs2|apply same_cache_record].
Qed.

Lemma marked_answer_is_not_cached_witness :
  let m := Cache.init ∅ 5 in
  let out := invoke W_marked (Chain.init None) (questions (lit "q")) m in
  fst out = Ok {| answer := lit "❌ 해당 품목은 수입할 수 없습니다.";
                  cache_hit := false; source := lit "RAG" |}
  /\ same_cache m (snd out).
Proof.
  intros m out.
  pose proof (marked_answer_is_not_cached W_marked (Chain.init None)
                (questions (lit "q")) m
                (snd (Cache.check_cache W_marked (lit "q") None
                        (Some 0.85%float) m))
                (snd (_retrieve_documents W_marked (lit "q") None
                        (snd (Cache.check_cache W_marked (lit "q") None
                                (Some 0.85%float) m))))
                None (format_hits 0 one_hit)
                (lit "  ❌ 해당 품목은 수입할 수 없습니다. ")) as H.
  destruct H as (H1 & H2).
  - vm_compute. reflexivity.
  - vm_compute. reflexivity.
  - reflexivity.
  - vm_compute. reflexivity.
  - vm_compute. reflexivity.
  - reflexivity.
  - vm_compute. reflexivity.
  - unfold out. rewrite H1. cbn [fst snd]. split.
    + vm_compute. reflexivity.
    + exact H2.
Defined.

Lemma sources_differ :
  lit "CAG" <> lit "RAG" /\ lit "CAG" <> lit "NONE" /\ lit "RAG" <> lit "NONE".
Proof. vm_compute. repeat split; discriminate. Qed.

(** X19. The shape of every response: [source] is "CAG", "RAG" or "NONE";
    [cache_hit] is true exactly when [source] is "CAG", and then the answer
    is not empty; with [source = "NONE"] the answer is one of the two fixed
    messages (empty question, no documents). *)
Theorem response_shape (W : World) (self : CAGRAGChain)
    (inputs : gmap pystr pystr) (m : Machine) (resp : Response) :
  deque_ok (user_cache m) ->
  fst (invoke W self inputs m) = Ok resp ->
  (source resp = lit "CAG" \/ source resp = lit "RAG" \/ source resp = lit "NONE")
  /\ (cache_hit resp = true <-> source resp = lit "CAG")
  /\ (cache_hit resp = true -> answer resp <> [])
  /\ (source resp = lit "NONE" ->
      answer resp = MSG_EMPTY_QUESTION \/ answer resp = MSG_NO_DOCS).
Proof.
  intros Hok Hres. destruct sources_differ as (Hcr & Hcn & Hrn).
  pose proof (invoke_outcomes W self inputs m Hok) as Hout.
  rewrite Hres in Hout.
  inversion Hout; subst; cbn [source cache_hit answer].
  - split; [auto|]. split; [split; [discriminate|intros H; now symmetry in H]|].
    split; [discriminate|auto].
  - split; [auto|]. split; [tauto|]. split; [|intros H; now apply Hcn in H].
    intros _ Hnil. rewrite Hnil in *. discriminate.
  - split; [auto|]. split; [split; [discriminate|intros H; now symmetry in H]|].
    split; [discriminate|auto].
  - split; [auto|]. split; [split; [discriminate|intros H; now symmetry in H]|].
    split; [discriminate|intros H; now apply Hrn in H].
  - split; [auto|]. split; [split; [discriminate|intros H; now symmetry in H]|].
    split; [discriminate|intros H; now apply Hrn in H].
Qed.

Lemma response_shape_witness :
  let resp := {| answer := lit "캐시된 답변"; cache_hit := true;
                 source := lit "CAG" |} in
  (cache_hit resp = true <-> source resp = lit "CAG") /\ answer resp <> [].
Proof.
  intros resp.
  destruct (response_shape W_hit (Chain.init None) (questions (lit "q"))
              (Cache.init ∅ 5) resp) as (_ & H2 & H3 & _).
  - unfold deque_ok. simpl. lia.
  - vm_compute. reflexivity.
  - split; [exact H2|]. apply H3. reflexivity.
Defined.

(** X20. When [invoke] raises: on a window within its capacity, an
    exception leaves [invoke] only if the cache's embedding of the question
    raised it or the Redis write of the write-back raised it; retrieval and
    generation failures never do. Conversely a failing cache embedding of a
    non-empty question always aborts [invoke], with the cache unchanged. *)
Theorem invoke_raises_only_from_cache (W : World) (self : CAGRAGChain)
    (inputs : gmap pystr pystr) (m : Machine) (e : exn) :
  let question := question_of inputs in
  deque_ok (user_cache m) ->
  (fst (invoke W self inputs m) = Raise e ->
   (model_encode W question = Raise e
    \/ hset_fault W (Cache.dynamic_key W question) = Some e)
   /\ same_cache m (snd (invoke W self inputs m)))
  /\ (truthy question = true -> model_encode W question = Raise e ->
      invoke W self inputs m = (Raise e, record (Encode question) m)).
Proof.
  intros question Hok. split.
  - intros Hres. pose proof (invoke_outcomes W self inputs m Hok) as Hout.
    rewrite Hres in Hout. inversion Hout; subst; auto.
  - intros Hq Henc. apply invoke_lookup_raises; [exact Hq|].
    fold question. now rewrite check_cache_cases, Henc.
Qed.

Lemma invoke_raises_only_from_cache_witness :
  invoke W_model_down (Chain.init None) (questions (lit "q")) (Cache.init ∅ 5)
  = (Raise (Exception (lit "CUDA out of memory")),
     record (Encode (lit "q")) (Cache.init ∅ 5))
  /\ same_cache (Cache.init ∅ 5)
       (snd (invoke W_redis_down (Chain.init None) (questions (lit "q"))
               (Cache.init ∅ 5))).
Proof.
  split.
  - pose proof (invoke_raises_only_from_cache W_model_down (Chain.init None)
                  (questions (lit "q")) (Cache.init ∅ 5)
                  (Exception (lit "CUDA out of memory"))) as H.
    destruct H as [_ H]; [unfold deque_ok; simpl; lia|].
    vm_compute in H. vm_compute. apply H; reflexivity.
  - pose proof (invoke_raises_only_from_cache W_redis_down (Chain.init None)
                  (questions (lit "q")) (Cache.init ∅ 5)
                  (Exception (lit "Connection refused"))) as H.
    destruct H as [H _]; [unfold deque_ok; simpl; lia|].
    apply H. vm_compute. reflexivity.
Defined.

(** X21. Only a "RAG" response can have changed the cache: whenever
    [invoke] returns a response whose [source] is not "RAG", or an answer
    that starts with the error mark, the Redis keyspace and the window are
    as before. *)
Theorem only_rag_answers_change_the_cache (W : World) (self : CAGRAGChain)
    (inputs : gmap pystr pystr) (m : Machine) (resp : Response) :
  deque_ok (user_cache m) ->
  fst (invoke W self inputs m) = Ok resp ->
  source resp <> lit "RAG" \/ startswith (answer resp) ERROR_MARK = true ->
  same_cache m (snd (invoke W self inputs m)).
Proof.
  intros Hok Hres Hcond.
  pose proof (invoke_outcomes W self inputs m Hok) as Hout.
  destruct (invoke W self inputs m) as [res m'] eqn:Hinv.
  cbn [fst snd] in *. subst res.
  inversion Hout; subst; cbn [source answer] in Hcond; try assumption.
  - apply same_cache_refl.
  - destruct Hcond as [Hne|Hmark]; [now contradiction Hne|congruence].
Qed.

Lemma only_rag_answers_change_the_cache_witness :
  same_cache (Cache.init ∅ 5)
    (snd (invoke W_es_empty (Chain.init None) (questions (lit "q"))
            (Cache.init ∅ 5))).
Proof.
  apply (only_rag_answers_change_the_cache W_es_empty (Chain.init None)
           (questions (lit "q")) (Cache.init ∅ 5)
           {| answer := MSG_NO_DOCS; cache_hit := false; source := lit "NONE" |}).
  - unfold deque_ok. simpl. lia.
  - vm_compute. reflexivity.
  - left. vm_compute. discriminate.
Defined.

Lemma badges_differ :
  Ui.BADGE_HIT <> Ui.BADGE_RAG /\ Ui.BADGE_HIT <> Ui.BADGE_NONE
  /\ Ui.BADGE_RAG <> Ui.BADGE_NONE.
Proof. vm_compute. repeat split; discriminate. Qed.

(** X22. The badge shown under an answer names its source: for every
    response of [invoke], [get_status_badge] gives the HIT badge exactly for
    source "CAG", the RAG badge exactly for source "RAG", and the
    "not available" badge exactly for source "NONE". *)
Theorem badge_names_the_source (W : World) (self : CAGRAGChain)
    (inputs : gmap pystr pystr) (m : Machine) (resp : Response) :
  deque_ok (user_cache m) ->
  fst (invoke W self inputs m) = Ok resp ->
  let badge := Ui.get_status_badge (source resp) (cache_hit resp) in
  (badge = Ui.BADGE_HIT <-> source resp = lit "CAG")
  /\ (badge = Ui.BADGE_RAG <-> source resp = lit "RAG")
  /\ (badge = Ui.BADGE_NONE <-> source resp = lit "NONE").
Proof.
  intros Hok Hres badge. destruct sources_differ as (Hcr & Hcn & Hrn).
  destruct badges_differ as (Bhr & Bhn & Brn).
  pose proof (invoke_outcomes W self inputs m Hok) as Hout.
  rewrite Hres in Hout.
  assert (bool_decide (lit "RAG" = lit "RAG") = true) as Hrag
    by now apply bool_decide_eq_true_2.
  assert (bool_decide (lit "NONE" = lit "RAG") = false) as Hnone
    by (apply bool_decide_eq_false_2; intros H; now symmetry in H).
  inversion Hout; subst; unfold badge, Ui.get_status_badge;
    cbn [source cache_hit]; rewrite ?Hrag, ?Hnone;
    (split; [|split]); split; intros H; try reflexivity;
    try (now symmetry in H); try (exfalso; auto; fail);
    try (exfalso; symmetry in H; auto; fail).
Qed.

Lemma badge_names_the_source_witness :
  Ui.get_status_badge (lit "RAG") false = Ui.BADGE_RAG.
Proof.
  apply (badge_names_the_source W0 (Chain.init None) (questions (lit "q"))
           (Cache.init ∅ 5)
           {| answer := lit "답"; cache_hit := false; source := lit "RAG" |}).
  - unfold deque_ok. simpl. lia.
  - vm_compute. reflexivity.
  - reflexivity.
Defined.

Lemma format_hits_truthy (i : N) (hit : Hit) (hits : list Hit) :
  truthy (format_hits i (hit :: hits)) = true.
Proof. reflexivity. Qed.

(** X23. [_retrieve_documents] never raises and never writes. Its result
    is non-empty exactly when the query embedding succeeded, the search
    returned at least one hit and every hit could be labelled (none lacks
    its source or content, and every content is a string); it is then the
    labelled passages of all hits. Every failure, of the embedding, of the
    search or of the labelling, gives the empty string. *)
Theorem retrieval_never_raises (W : World) (query : pystr) (top_k : option Z)
    (m : Machine) :
  exists context,
    fst (_retrieve_documents W query top_k m) = Ok context
    /\ same_cache m (snd (_retrieve_documents W query top_k m))
    /\ (truthy context = true <->
        exists v hits hs,
          embedding_model_encode W query = Ok v
          /\ es_search W v (default 3%Z top_k) = Ok hits
          /\ hits <> []
          /\ well_formed hits = Some hs
          /\ context = format_hits 0 hs).
Proof.
  pose proof (retrieve_documents_same_cache W query top_k m) as Hs.
  rewrite retrieve_documents_cases in Hs |- *. cbv zeta in Hs |- *.
  destruct (embedding_model_encode W query) as [v|e].
  - destruct (es_search W v (default 3%Z top_k)) as [[|hit hits]|e] eqn:Hes.
    + exists []. split; [reflexivity|]. split; [exact Hs|].
      split; [discriminate|].
      intros (v' & hits' & hs & [= <-] & Hs' & Hne & _).
      rewrite Hes in Hs'. injection Hs' as <-. now contradiction Hne.
    + destruct (well_formed (hit :: hits)) as [hs|] eqn:Hwf.
      * exists (format_hits 0 hs). split; [reflexivity|].
        split; [exact Hs|]. split.
        -- intros _. exists v, (hit :: hits), hs. now repeat split.
        -- intros _. destruct (well_formed_cons hit hits hs Hwf) as (h & t & ->).
           reflexivity.
      * exists []. split; [reflexivity|]. split; [exact Hs|].
        split; [discriminate|].
        intros (v' & hits' & hs & [= <-] & Hs' & _ & Hwf' & _).
        rewrite Hes in Hs'. injection Hs' as <-. rewrite Hwf in Hwf'.
        discriminate.
    + exists []. split; [reflexivity|]. split; [exact Hs|].
      split; [discriminate|].
      intros (v' & hits' & hs & [= <-] & Hs' & _).
      rewrite Hes in Hs'. discriminate.
  - exists []. split; [reflexivity|]. split; [exact Hs|].
    split; [discriminate|]. intros (v' & hits' & hs & Hv & _). discriminate.
Qed.

(** One hit that cannot be labelled discards the whole context, and the
    chain ends as without documents. *)
Example malformed_hit_gives_no_context :
  let m := Cache.init ∅ 5 in
  fst (_retrieve_documents W_es_malformed (lit "q") None m) = Ok []
  /\ fst (invoke W_es_malformed (Chain.init None) (questions (lit "q")) m)
     = Ok {| answer := MSG_NO_DOCS; cache_hit := false; source := lit "NONE" |}.
Proof. vm_compute. split; reflexivity. Qed.

Lemma format_hits_cons (i : N) (hit : Hit) (rest : list Hit) :
  format_hits i (hit :: rest)
  = ([NL] ++ lit "--- 문서 " ++ str_of_N (i + 1) ++ lit " (출처: "
        ++ hit_source hit ++ lit ") ---" ++ [NL])
      ++ hit_content hit
      ++ ([NL] ++ lit "-----------------------------------" ++ [NL])
      ++ format_hits (i + 1) rest.
Proof. reflexivity. Qed.

(** X24. Passages are labelled in retrieval order, counting from 1: the
    context of a list of hits is the context of its first part followed by
    the context of the rest, numbered on from where the first part stopped. *)
Theorem passages_are_numbered_in_order (i : N) (hits1 hits2 : list Hit) :
  format_hits i (hits1 ++ hits2)
  = format_hits i hits1 ++ format_hits (i + N.of_nat (length hits1)) hits2.
Proof.
  revert i. induction hits1 as [|hit hits1 IH]; intros i.
  - simpl. now rewrite N.add_0_r.
  - rewrite <- app_comm_cons, !format_hits_cons, IH.
    replace (i + 1 + N.of_nat (length hits1))%N
      with (i + N.of_nat (length (hit :: hits1)))%N by (simpl length; lia).
    now rewrite <- !app_assoc.
Qed.

End ChainMore.
